(** * Secure PDF viewer: access gate, security layers and signed-URL probing

  A shallow embedding of
    - [backend/middleware/authMiddleware.js]   (module [AccessGate]),
    - the [useSecurityLayers] React hook       (module [SecurityLayers]),
    - the Cloudinary access test script        (module [SignedUrlProbe]),
  together with the properties the specification states about them. *)

From Stdlib Require Import Bool List String Ascii NArith ZArith QArith Lia Sorted.
Import ListNotations.
Open Scope string_scope.

(** ** JavaScript values and string helpers *)

Module Js.

(** The handful of JavaScript values that the modelled code inspects
    for truthiness. *)
Inductive value :=
| Undefined
| Null
| Bool (b : bool)
| Number (n : Z)
| Str (s : string).

(** [ToBoolean]. *)
Definition truthy (v : value) : bool :=
  match v with
  | Undefined | Null => false
  | Bool b => b
  | Number n => negb (n =? 0)%Z
  | Str s => negb (s =? "")
  end.

(** [a || b] on values. *)
Definition or_else (a b : value) : value := if truthy a then a else b.

(** [s.startsWith(p)]. *)
Definition startsWith (s p : string) : bool := String.prefix p s.

(** [s.split(sep)] for a one-character separator. *)
Fixpoint split (sep : ascii) (s : string) : list string :=
  match s with
  | EmptyString => [EmptyString]
  | String c r =>
      if Ascii.eqb c sep then EmptyString :: split sep r
      else match split sep r with
           | [] => [String c EmptyString]
           | h :: t => String c h :: t
           end
  end.

Definition lower_ascii (c : ascii) : ascii :=
  let n := nat_of_ascii c in
  if (65 <=? n)%nat && (n <=? 90)%nat then ascii_of_nat (n + 32) else c.

(** The upper-case form of a lower-case ASCII letter. *)
Definition upper_of (c : ascii) : ascii := ascii_of_nat (nat_of_ascii c - 32).

(** [s.toLowerCase()] on the ASCII range.  Outside ASCII the only code
    point whose lower-case form is an ASCII letter is the Kelvin sign
    (to "k"), which no rule of the keyboard table mentions. *)
Fixpoint toLowerCase (s : string) : string :=
  match s with
  | EmptyString => EmptyString
  | String c r => String (lower_ascii c) (toLowerCase r)
  end.

(** [s.replace(a, b)] with one-character pattern and replacement: only the
    first occurrence is replaced. *)
Fixpoint replace_first (a b : ascii) (s : string) : string :=
  match s with
  | EmptyString => EmptyString
  | String c r => if Ascii.eqb c a then String b r
                  else String c (replace_first a b r)
  end.

End Js.

(** ** Access gate: [authMiddleware] *)

Module AccessGate.

Record DecodedToken := { uid : string }.

(** The fields of a [users/{uid}] document that the middleware reads. *)
Record UserData := {
  disabled : Js.value;
  disabledReason : Js.value
}.

(** An awaited call either resolves to a value or rejects with an error. *)
Inductive awaited (A : Type) :=
| Resolved (a : A)
| Rejected (err : string).
Arguments Resolved {A} a.
Arguments Rejected {A} err.

(** The collaborators of the middleware: the identity issuer, the user
    record store, and the rest of the route ([next]). *)
Record Env := {
  verifyIdToken : string -> awaited DecodedToken;
  getUserDoc : string -> awaited (option UserData);  (* [None]: [!userDoc.exists] *)
  next : option string                               (* [Some e]: [next()] throws [e] *)
}.

Record Request := { authorization : option string }.

Record Body := { message : string; reason : option Js.value }.

(** What a run of the middleware does, in order. *)
Inductive Effect :=
| SetReqUser (d : DecodedToken)
| CallNext
| ConsoleError (err : string)
| Respond (status : nat) (body : Body).

Definition unauthorized_no_token : Effect :=
  Respond 401 {| message := "Unauthorized: No token provided"; reason := None |}.

Definition unauthorized_invalid : Effect :=
  Respond 401 {| message := "Unauthorized: Invalid token"; reason := None |}.

Definition default_reason : Js.value := Js.Str "Terms verification pending".

Definition forbidden (u : UserData) : Effect :=
  Respond 403
    {| message := "Account suspended due to security violations.";
       reason := Some (Js.or_else (disabledReason u) default_reason) |}.

(** [authHeader && authHeader.startsWith('Bearer ')]. *)
Definition is_bearer (authHeader : option string) : bool :=
  match authHeader with
  | Some h => negb (h =? "") && Js.startsWith h "Bearer "
  | None => false
  end.

(** [authHeader.split(' ')[1]]; index 1 exists whenever [is_bearer] holds
    (lemma [bearer_token_defined]). *)
Definition token_of (h : string) : string := nth 1 (Js.split " " h) "".

(** The [catch] block. *)
Definition on_error (err : string) : list Effect :=
  [ConsoleError err; unauthorized_invalid].

(** [next()], still inside the [try] block. *)
Definition call_next (env : Env) : list Effect :=
  CallNext :: match next env with
              | Some err => on_error err
              | None => []
              end.

Definition authMiddleware (env : Env) (req : Request) : list Effect :=
  match authorization req with
  | Some authHeader =>
      if negb (authHeader =? "") && Js.startsWith authHeader "Bearer " then
        let token := token_of authHeader in
        match verifyIdToken env token with
        | Rejected err => on_error err
        | Resolved decodedToken =>
            SetReqUser decodedToken ::
            match getUserDoc env (uid decodedToken) with
            | Rejected err => on_error err
            | Resolved (Some userData) =>
                if Js.truthy (disabled userData) then [forbidden userData]
                else call_next env
            | Resolved None => call_next env
            end
        end
      else [unauthorized_no_token]
  | None => [unauthorized_no_token]
  end.

(** Whether the downstream handler was entered. *)
Definition downstream_ran (l : list Effect) : bool :=
  existsb (fun e => match e with CallNext => true | _ => false end) l.

End AccessGate.

(** ** The [useSecurityLayers] hook *)

Module SecurityLayers.

(** *** Keyboard rule table (Layer 2, decision part) *)

(** The fields of a keyboard event that the handlers read. *)
Record KeyEvent := {
  key : string;
  ctrlKey : bool;
  metaKey : bool;
  shiftKey : bool
}.

(** One entry of [blockedCombinations]; [shift] is [None] where the entry
    has no [shift] property. *)
Record Combo := {
  ctrl : bool;
  shift : option bool;
  combo_key : string;
  action : string
}.

Definition blockedCombinations : list Combo :=
  [ {| ctrl := true; shift := None; combo_key := "p"; action := "print" |};
    {| ctrl := true; shift := None; combo_key := "s"; action := "save" |};
    {| ctrl := true; shift := None; combo_key := "c"; action := "copy" |};
    {| ctrl := true; shift := None; combo_key := "a"; action := "select_all" |};
    {| ctrl := true; shift := None; combo_key := "u"; action := "view_source" |};
    {| ctrl := true; shift := Some true; combo_key := "i"; action := "devtools" |};
    {| ctrl := true; shift := Some true; combo_key := "j"; action := "devtools" |};
    {| ctrl := true; shift := Some true; combo_key := "c"; action := "devtools" |};
    {| ctrl := true; shift := Some true; combo_key := "s"; action := "screenshot" |} ].

(** The body of the [for] loop: [ctrlMatch && shiftMatch && keyMatch]. *)
Definition combo_matches (e : KeyEvent) (combo : Combo) : bool :=
  let key := Js.toLowerCase (key e) in
  let isCtrl := ctrlKey e || metaKey e in
  let isShift := shiftKey e in
  let ctrlMatch := if ctrl combo then isCtrl else true in
  let shiftMatch :=
    if match shift combo with Some b => b | None => false end
    then isShift else negb isShift in
  let keyMatch := key =? combo_key combo in
  ctrlMatch && shiftMatch && keyMatch.

(** The loop returns at the first entry that matches. *)
Definition first_match (e : KeyEvent) : option Combo :=
  find (combo_matches e) blockedCombinations.

Inductive Verdict :=
| Allow
| Block (actionTag : string).

(** The decision taken by [handleKeyDown] up to and including the [F12]
    test: the action it logs with [KEYBOARD_BLOCKED], if any. *)
Definition classify (e : KeyEvent) : Verdict :=
  match first_match e with
  | Some combo => Block (action combo)
  | None => if key e =? "F12" then Block "devtools" else Allow
  end.

(** *** The world the hook runs in *)

(** [contentRef.current.style], as far as the hook writes it. *)
Record Style := { opacity : string; cssFilter : string }.

Definition hidden_style : Style := {| opacity := "0"; cssFilter := "blur(50px)" |}.
Definition shown_style : Style := {| opacity := "1"; cssFilter := "none" |}.

Inductive EventType :=
| CONTEXT_MENU_BLOCKED
| KEYBOARD_BLOCKED
| PRINTSCREEN_BLOCKED
| FOCUS_LOST
| TAB_HIDDEN
| DEVTOOLS_DETECTED
| LARGE_RESIZE_DETECTED
| COPY_BLOCKED.

(** The event object built by [logEvent]; [userInfo], [url] and
    [userAgent] are constant pass-through fields and are left out. *)
Record SecurityEvent := {
  type : EventType;
  timestamp : N;
  details : list (string * Js.value)
}.

(** Callbacks handed to [setTimeout]. *)
Inductive TimerCallback :=
| ClearViolation     (* [() => setSecurityViolation(null)] *)
| CallShowContent    (* [showContent] itself *)
| RestoreStyle.      (* the arrow function inside [showContent] *)

(** What [navigator.clipboard.writeText] does in this browser. *)
Inductive ClipboardApi :=
| ClipMissing        (* [navigator.clipboard] is undefined: the call throws *)
| ClipGranted        (* the promise resolves *)
| ClipDenied.        (* the promise rejects, after the handler returned *)

Record World := {
  (* clock, in milliseconds *)
  now : N;
  (* React state of the hook *)
  isFocused : bool;
  devToolsOpen : bool;
  securityViolation : Js.value;          (* [null] or the message *)
  triggerCount : nat;
  (* refs *)
  lastWidth : Z;
  lastHeight : Z;
  (* host *)
  content : option Style;                (* [contentRef?.current]; [None] when null *)
  docHidden : bool;                      (* [document.hidden] *)
  clipboardApi : ClipboardApi;
  clipboardText : string;
  rejections : nat;                      (* promise rejections nobody handles *)
  timers : list (N * TimerCallback);     (* pending timeouts, in creation order *)
  sink : list SecurityEvent;             (* calls of [onSecurityEvent], oldest first *)
  uncaught : list string;                (* exceptions that escaped a callback *)
  prevented : nat                        (* calls of [e.preventDefault()] *)
}.

Definition setIsFocused (b : bool) (w : World) : World :=
  {| now := now w; isFocused := b; devToolsOpen := devToolsOpen w;
     securityViolation := securityViolation w; triggerCount := triggerCount w;
     lastWidth := lastWidth w; lastHeight := lastHeight w;
     content := content w; docHidden := docHidden w;
     clipboardApi := clipboardApi w; clipboardText := clipboardText w;
     rejections := rejections w; timers := timers w; sink := sink w;
     uncaught := uncaught w; prevented := prevented w |}.

Definition setDevToolsOpen (b : bool) (w : World) : World :=
  {| now := now w; isFocused := isFocused w; devToolsOpen := b;
     securityViolation := securityViolation w; triggerCount := triggerCount w;
     lastWidth := lastWidth w; lastHeight := lastHeight w;
     content := content w; docHidden := docHidden w;
     clipboardApi := clipboardApi w; clipboardText := clipboardText w;
     rejections := rejections w; timers := timers w; sink := sink w;
     uncaught := uncaught w; prevented := prevented w |}.

Definition setSecurityViolation (v : Js.value) (w : World) : World :=
  {| now := now w; isFocused := isFocused w; devToolsOpen := devToolsOpen w;
     securityViolation := v; triggerCount := triggerCount w;
     lastWidth := lastWidth w; lastHeight := lastHeight w;
     content := content w; docHidden := docHidden w;
     clipboardApi := clipboardApi w; clipboardText := clipboardText w;
     rejections := rejections w; timers := timers w; sink := sink w;
     uncaught := uncaught w; prevented := prevented w |}.

Definition setTriggerCount (f : nat -> nat) (w : World) : World :=
  {| now := now w; isFocused := isFocused w; devToolsOpen := devToolsOpen w;
     securityViolation := securityViolation w; triggerCount := f (triggerCount w);
     lastWidth := lastWidth w; lastHeight := lastHeight w;
     content := content w; docHidden := docHidden w;
     clipboardApi := clipboardApi w; clipboardText := clipboardText w;
     rejections := rejections w; timers := timers w; sink := sink w;
     uncaught := uncaught w; prevented := prevented w |}.

Definition set_last (width height : Z) (w : World) : World :=
  {| now := now w; isFocused := isFocused w; devToolsOpen := devToolsOpen w;
     securityViolation := securityViolation w; triggerCount := triggerCount w;
     lastWidth := width; lastHeight := height;
     content := content w; docHidden := docHidden w;
     clipboardApi := clipboardApi w; clipboardText := clipboardText w;
     rejections := rejections w; timers := timers w; sink := sink w;
     uncaught := uncaught w; prevented := prevented w |}.

Definition set_now (t : N) (w : World) : World :=
  {| now := t; isFocused := isFocused w; devToolsOpen := devToolsOpen w;
     securityViolation := securityViolation w; triggerCount := triggerCount w;
     lastWidth := lastWidth w; lastHeight := lastHeight w;
     content := content w; docHidden := docHidden w;
     clipboardApi := clipboardApi w; clipboardText := clipboardText w;
     rejections := rejections w; timers := timers w; sink := sink w;
     uncaught := uncaught w; prevented := prevented w |}.

Definition set_content (c : option Style) (w : World) : World :=
  {| now := now w; isFocused := isFocused w; devToolsOpen := devToolsOpen w;
     securityViolation := securityViolation w; triggerCount := triggerCount w;
     lastWidth := lastWidth w; lastHeight := lastHeight w;
     content := c; docHidden := docHidden w;
     clipboardApi := clipboardApi w; clipboardText := clipboardText w;
     rejections := rejections w; timers := timers w; sink := sink w;
     uncaught := uncaught w; prevented := prevented w |}.

Definition set_docHidden (b : bool) (w : World) : World :=
  {| now := now w; isFocused := isFocused w; devToolsOpen := devToolsOpen w;
     securityViolation := securityViolation w; triggerCount := triggerCount w;
     lastWidth := lastWidth w; lastHeight := lastHeight w;
     content := content w; docHidden := b;
     clipboardApi := clipboardApi w; clipboardText := clipboardText w;
     rejections := rejections w; timers := timers w; sink := sink w;
     uncaught := uncaught w; prevented := prevented w |}.

Definition set_clipboard (api : ClipboardApi) (text : string) (n : nat)
    (w : World) : World :=
  {| now := now w; isFocused := isFocused w; devToolsOpen := devToolsOpen w;
     securityViolation := securityViolation w; triggerCount := triggerCount w;
     lastWidth := lastWidth w; lastHeight := lastHeight w;
     content := content w; docHidden := docHidden w;
     clipboardApi := api; clipboardText := text;
     rejections := n; timers := timers w; sink := sink w;
     uncaught := uncaught w; prevented := prevented w |}.

Definition set_timers (l : list (N * TimerCallback)) (w : World) : World :=
  {| now := now w; isFocused := isFocused w; devToolsOpen := devToolsOpen w;
     securityViolation := securityViolation w; triggerCount := triggerCount w;
     lastWidth := lastWidth w; lastHeight := lastHeight w;
     content := content w; docHidden := docHidden w;
     clipboardApi := clipboardApi w; clipboardText := clipboardText w;
     rejections := rejections w; timers := l; sink := sink w;
     uncaught := uncaught w; prevented := prevented w |}.

Definition set_sink (l : list SecurityEvent) (w : World) : World :=
  {| now := now w; isFocused := isFocused w; devToolsOpen := devToolsOpen w;
     securityViolation := securityViolation w; triggerCount := triggerCount w;
     lastWidth := lastWidth w; lastHeight := lastHeight w;
     content := content w; docHidden := docHidden w;
     clipboardApi := clipboardApi w; clipboardText := clipboardText w;
     rejections := rejections w; timers := timers w; sink := l;
     uncaught := uncaught w; prevented := prevented w |}.

Definition throw (err : string) (w : World) : World :=
  {| now := now w; isFocused := isFocused w; devToolsOpen := devToolsOpen w;
     securityViolation := securityViolation w; triggerCount := triggerCount w;
     lastWidth := lastWidth w; lastHeight := lastHeight w;
     content := content w; docHidden := docHidden w;
     clipboardApi := clipboardApi w; clipboardText := clipboardText w;
     rejections := rejections w; timers := timers w; sink := sink w;
     uncaught := uncaught w ++ [err]; prevented := prevented w |}.

Definition preventDefault (w : World) : World :=
  {| now := now w; isFocused := isFocused w; devToolsOpen := devToolsOpen w;
     securityViolation := securityViolation w; triggerCount := triggerCount w;
     lastWidth := lastWidth w; lastHeight := lastHeight w;
     content := content w; docHidden := docHidden w;
     clipboardApi := clipboardApi w; clipboardText := clipboardText w;
     rejections := rejections w; timers := timers w; sink := sink w;
     uncaught := uncaught w; prevented := S (prevented w) |}.

(** The state of a freshly mounted hook: [useState(true)],
    [useState(false)], [useState(null)], [useState(0)]. *)
Definition mount (outerWidth outerHeight : Z) (surface : option Style)
    (api : ClipboardApi) : World :=
  {| now := 0; isFocused := true; devToolsOpen := false;
     securityViolation := Js.Null; triggerCount := 0;
     lastWidth := outerWidth; lastHeight := outerHeight;
     content := surface; docHidden := false;
     clipboardApi := api; clipboardText := "";
     rejections := 0; timers := []; sink := [];
     uncaught := []; prevented := 0 |}.

(** Statements run top to bottom: [w |> f |> g] is [f] and then [g]. *)
Notation "w |> f" := (f w) (at level 45, left associativity, only parsing).

(** *** Helpers of the hook *)

(** [setTimeout(cb, delay)]. *)
Definition setTimeout (cb : TimerCallback) (delay : N) (w : World) : World :=
  set_timers (timers w ++ [((now w + delay)%N, cb)]) w.

Definition hideContentInstantly (w : World) : World :=
  match content w with
  | Some _ => set_content (Some hidden_style) w
  | None => w
  end.

Definition showContent (w : World) : World :=
  match content w with
  | Some _ => setTimeout RestoreStyle 100 w
  | None => w
  end.

Definition logEvent (eventType : EventType) (details : list (string * Js.value))
    (w : World) : World :=
  let event := {| type := eventType; timestamp := now w; details := details |} in
  w |> setTriggerCount S |> set_sink (sink w ++ [event]).

Definition showViolation (message : string) (w : World) : World :=
  w |> setSecurityViolation (Js.Str message) |> setTimeout ClearViolation 3000.

(** [navigator.clipboard.writeText(text)]: [inl] when the call throws. *)
Definition writeText (text : string) (w : World) : string + World :=
  match clipboardApi w with
  | ClipMissing => inl "TypeError"
  | ClipGranted => inr (set_clipboard ClipGranted text (rejections w) w)
  | ClipDenied => inr (set_clipboard ClipDenied (clipboardText w) (S (rejections w)) w)
  end.

(** [try { navigator.clipboard.writeText(...) } catch (err) { }]. *)
Definition overwrite_clipboard (w : World) : World :=
  match writeText "Screenshot disabled - This content is protected" w with
  | inr w' => w'
  | inl _ => w
  end.

(** *** Layer 1 *)

Definition handleContextMenu (w : World) : World :=
  w |> preventDefault
    |> logEvent CONTEXT_MENU_BLOCKED []
    |> showViolation "Right-click is disabled".

(** *** Layer 2 *)

Definition handleKeyDown (e : KeyEvent) (w : World) : World :=
  match first_match e with
  | Some combo =>
      w |> preventDefault
        |> logEvent KEYBOARD_BLOCKED
             [("action", Js.Str (action combo)); ("key", Js.Str (key e))]
        |> showViolation (Js.replace_first "_" " " (action combo) ++ " is disabled")
  | None =>
      if key e =? "F12" then
        w |> preventDefault
          |> logEvent KEYBOARD_BLOCKED
               [("action", Js.Str "devtools"); ("key", Js.Str "F12")]
          |> showViolation "Developer tools are disabled"
      else if key e =? "PrintScreen" then
        w |> preventDefault
          |> hideContentInstantly
          |> overwrite_clipboard
          |> logEvent PRINTSCREEN_BLOCKED []
          |> showViolation "Screenshots are disabled"
          |> setTimeout CallShowContent 2000
      else if (key e =? "Meta") || (key e =? "OS") then
        hideContentInstantly w
      else w
  end.

(** The arrow function registered for [keyup]. *)
Definition handleKeyUp (e : KeyEvent) (w : World) : World :=
  let w1 :=
    if key e =? "PrintScreen" then
      w |> hideContentInstantly
        |> overwrite_clipboard
        |> setTimeout CallShowContent 2000
    else w in
  if (key e =? "Meta") || (key e =? "OS") then setTimeout CallShowContent 1000 w1
  else w1.

(** *** Layer 3 *)

Definition handleFocus (w : World) : World :=
  w |> setIsFocused true |> showContent.

Definition handleBlur (w : World) : World :=
  w |> setIsFocused false |> hideContentInstantly |> logEvent FOCUS_LOST [].

Definition handleVisibilityChange (w : World) : World :=
  if docHidden w then
    w |> setIsFocused false |> hideContentInstantly |> logEvent TAB_HIDDEN []
  else
    w |> setIsFocused true |> showContent.

(** *** Layer 4 *)

(** What one run of [checkDevTools] measures. *)
Record Sample := {
  outerWidth : Z;
  innerWidth : Z;
  outerHeight : Z;
  innerHeight : Z;
  duration : Q;          (* around the console write and clear *)
  debugDuration : Q      (* around the debugger checkpoint *)
}.

(** [a > b] on the measured durations. *)
Definition Qgtb (a b : Q) : bool := negb (Qle_bool a b).

Definition devToolsOpen1 (s : Sample) : bool :=
  let widthThreshold := 160%Z in
  let heightThreshold := 160%Z in
  let widthDiff := (outerWidth s - innerWidth s)%Z in
  let heightDiff := (outerHeight s - innerHeight s)%Z in
  (widthDiff >? widthThreshold)%Z || (heightDiff >? heightThreshold)%Z.

Definition devToolsOpen2 (s : Sample) : bool := Qgtb (duration s) 100.

Definition devToolsOpen3 (s : Sample) : bool := Qgtb (debugDuration s) 100.

Definition isOpen (s : Sample) : bool :=
  devToolsOpen1 s || devToolsOpen2 s || devToolsOpen3 s.

Definition detection_method (s : Sample) : string :=
  if devToolsOpen1 s then "size"
  else if devToolsOpen2 s then "console"
  else "debugger".

(** The effect lists [devToolsOpen] among its dependencies, so the closure
    that runs reads the value of the latest render. *)
Definition checkDevTools (s : Sample) (w : World) : World :=
  if isOpen s && negb (devToolsOpen w) then
    w |> setDevToolsOpen true
      |> logEvent DEVTOOLS_DETECTED [("method", Js.Str (detection_method s))]
  else if negb (isOpen s) && devToolsOpen w then
    setDevToolsOpen false w
  else w.

(** *** Layer 5 *)

Definition handleResize (newWidth newHeight : Z) (w : World) : World :=
  let widthChange := Z.abs (newWidth - lastWidth w) in
  let heightChange := Z.abs (newHeight - lastHeight w) in
  (if (widthChange >? 500)%Z || (heightChange >? 500)%Z then
     logEvent LARGE_RESIZE_DETECTED
       [("widthChange", Js.Number widthChange);
        ("heightChange", Js.Number heightChange);
        ("newWidth", Js.Number newWidth);
        ("newHeight", Js.Number newHeight)] w
   else w)
  |> set_last newWidth newHeight.

(** *** Layers 6 and 7 *)

Definition handleDragStart (w : World) : World := preventDefault w.
Definition handleDrop (w : World) : World := preventDefault w.
Definition handleSelectStart (w : World) : World := preventDefault w.
Definition handleCut (w : World) : World := preventDefault w.

Definition handleCopy (w : World) : World :=
  w |> preventDefault
    |> logEvent COPY_BLOCKED []
    |> showViolation "Copying is disabled".

(** *** Computed security state *)


(** *** Timers *)

Definition run_timer (cb : TimerCallback) (w : World) : World :=
  match cb with
  | ClearViolation => setSecurityViolation Js.Null w
  | CallShowContent => showContent w
  | RestoreStyle =>
      (* [contentRef.current.style.opacity = '1'; ...style.filter = 'none'] *)
      match content w with
      | Some _ => set_content (Some shown_style) w
      | None => throw "TypeError" w
      end
  end.

(** The pending timeout that fires next: the one with the least deadline,
    the oldest among equals; with it, the timeouts that stay pending. *)
Fixpoint extract_min (l : list (N * TimerCallback))
  : option ((N * TimerCallback) * list (N * TimerCallback)) :=
  match l with
  | [] => None
  | entry :: rest =>
      match extract_min rest with
      | None => Some (entry, [])
      | Some (m, rest') =>
          if (fst entry <=? fst m)%N then Some (entry, rest)
          else Some (m, entry :: rest')
      end
  end.

Definition next_due (target : N) (l : list (N * TimerCallback))
  : option ((N * TimerCallback) * list (N * TimerCallback)) :=
  match extract_min l with
  | Some (m, rest) => if (fst m <=? target)%N then Some (m, rest) else None
  | None => None
  end.

(** The timeout [m] fires: the clock is at its deadline, it is no longer
    pending, its callback runs. *)
Definition fire (m : N * TimerCallback) (rest : list (N * TimerCallback))
    (w : World) : World :=
  w |> set_now (N.max (now w) (fst m)) |> set_timers rest |> run_timer (snd m).

(** The event loop up to the instant [target]: the due timeouts fire one
    after the other, then the clock reads [target]. *)
Fixpoint run_fuel (fuel : nat) (target : N) (w : World) : World :=
  match fuel with
  | O => w
  | S fuel' =>
      match next_due target (timers w) with
      | Some (m, rest) => run_fuel fuel' target (fire m rest w)
      | None => set_now target w
      end
  end.

(** A bound on the callbacks still to run: [showContent] creates one more
    timeout, the other callbacks none. *)
Definition weight_cb (cb : TimerCallback) : nat :=
  match cb with
  | CallShowContent => 2
  | ClearViolation | RestoreStyle => 1
  end.

Definition weight (l : list (N * TimerCallback)) : nat :=
  list_sum (map (fun entry => weight_cb (snd entry)) l).

Definition run_until (target : N) (w : World) : World :=
  run_fuel (S (weight (timers w))) target w.

(** [dt] milliseconds pass. *)
Definition advance (dt : N) (w : World) : World := run_until (now w + dt) w.

(** The runs of [checkDevTools] of an enabled layer: one at once and one
    per 1000 ms interval tick, each with its own measurements. *)
Definition polling (samples : list Sample) (w : World) : World :=
  fold_left (fun w s => advance 1000 (checkDevTools s w)) samples w.

(** *** Event listeners and the layers' effects *)

Inductive DomEvent :=
| EvContextMenu
| EvKeyDown (e : KeyEvent)
| EvKeyUp (e : KeyEvent)
| EvFocus
| EvBlur
| EvVisibilityChange (hidden : bool)
| EvResize (newWidth newHeight : Z)
| EvDragStart
| EvDrop
| EvSelectStart
| EvCopy
| EvCut.

(** The functions the effects register. *)
Inductive HandlerName :=
| HContextMenu | HKeyDown | HKeyUp | HFocus | HBlur | HVisibilityChange
| HResize | HDragStart | HDrop | HSelectStart | HCopy | HCut.

Definition run_handler (h : HandlerName) (ev : DomEvent) (w : World) : World :=
  match h, ev with
  | HContextMenu, EvContextMenu => handleContextMenu w
  | HKeyDown, EvKeyDown e => handleKeyDown e w
  | HKeyUp, EvKeyUp e => handleKeyUp e w
  | HFocus, EvFocus => handleFocus w
  | HBlur, EvBlur => handleBlur w
  | HVisibilityChange, EvVisibilityChange _ => handleVisibilityChange w
  | HResize, EvResize newWidth newHeight => handleResize newWidth newHeight w
  | HDragStart, EvDragStart => handleDragStart w
  | HDrop, EvDrop => handleDrop w
  | HSelectStart, EvSelectStart => handleSelectStart w
  | HCopy, EvCopy => handleCopy w
  | HCut, EvCut => handleCut w
  | _, _ => w
  end.

Inductive Target := Document | Window.

(** A function object is identified by the handler it was created from
    and by the run of the effect that created it. *)
Record Listener := {
  target : Target;
  etype : string;
  callback : HandlerName * nat;
  capture : bool
}.

Definition target_eqb (a b : Target) : bool :=
  match a, b with
  | Document, Document | Window, Window => true
  | _, _ => false
  end.

Definition handler_index (h : HandlerName) : nat :=
  match h with
  | HContextMenu => 0 | HKeyDown => 1 | HKeyUp => 2 | HFocus => 3
  | HBlur => 4 | HVisibilityChange => 5 | HResize => 6 | HDragStart => 7
  | HDrop => 8 | HSelectStart => 9 | HCopy => 10 | HCut => 11
  end.

Definition listener_eqb (a b : Listener) : bool :=
  target_eqb (target a) (target b)
  && (etype a =? etype b)
  && Nat.eqb (handler_index (fst (callback a))) (handler_index (fst (callback b)))
  && Nat.eqb (snd (callback a)) (snd (callback b))
  && Bool.eqb (capture a) (capture b).

Record Registry := {
  listeners : list Listener;   (* in registration order *)
  intervals : list nat         (* ids of the running intervals *)
}.

Definition no_listeners : Registry := {| listeners := []; intervals := [] |}.

(** Registering the same function twice for the same type and phase has
    no effect; removing one that is not registered has no effect. *)
Definition addEventListener (t : Target) (ty : string) (cb : HandlerName * nat)
    (cap : bool) (r : Registry) : Registry :=
  let l := {| target := t; etype := ty; callback := cb; capture := cap |} in
  if existsb (listener_eqb l) (listeners r) then r
  else {| listeners := listeners r ++ [l]; intervals := intervals r |}.

Definition removeEventListener (t : Target) (ty : string) (cb : HandlerName * nat)
    (cap : bool) (r : Registry) : Registry :=
  let l := {| target := t; etype := ty; callback := cb; capture := cap |} in
  {| listeners := filter (fun x => negb (listener_eqb l x)) (listeners r);
     intervals := intervals r |}.

Definition setInterval (id : nat) (r : Registry) : Registry :=
  {| listeners := listeners r; intervals := intervals r ++ [id] |}.

Definition clearInterval (id : nat) (r : Registry) : Registry :=
  {| listeners := listeners r;
     intervals := filter (fun x => negb (Nat.eqb x id)) (intervals r) |}.

Inductive Layer :=
| ContextMenuLayer | KeyboardLayer | FocusLayer | DevToolsLayer
| ResizeLayer | DragDropLayer | SelectionLayer.

(** The body of a layer's effect when [enabled]; [run] numbers the run of
    the effect, so that the closures of different runs differ. *)
Definition attach (layer : Layer) (run : nat) (r : Registry) : Registry :=
  match layer with
  | ContextMenuLayer =>
      r |> addEventListener Document "contextmenu" (HContextMenu, run) true
  | KeyboardLayer =>
      r |> addEventListener Document "keydown" (HKeyDown, run) true
        |> addEventListener Document "keyup" (HKeyUp, run) true
  | FocusLayer =>
      r |> addEventListener Window "focus" (HFocus, run) false
        |> addEventListener Window "blur" (HBlur, run) false
        |> addEventListener Document "visibilitychange" (HVisibilityChange, run) false
  | DevToolsLayer =>
      r |> setInterval run
  | ResizeLayer =>
      r |> addEventListener Window "resize" (HResize, run) false
  | DragDropLayer =>
      r |> addEventListener Document "dragstart" (HDragStart, run) true
        |> addEventListener Document "drop" (HDrop, run) true
  | SelectionLayer =>
      r |> addEventListener Document "selectstart" (HSelectStart, run) true
        |> addEventListener Document "copy" (HCopy, run) true
        |> addEventListener Document "cut" (HCut, run) true
  end.

(** The function a layer's effect returns. *)
Definition cleanup (layer : Layer) (run : nat) (r : Registry) : Registry :=
  match layer with
  | ContextMenuLayer =>
      r |> removeEventListener Document "contextmenu" (HContextMenu, run) true
  | KeyboardLayer =>
      r |> removeEventListener Document "keydown" (HKeyDown, run) true
  | FocusLayer =>
      r |> removeEventListener Window "focus" (HFocus, run) false
        |> removeEventListener Window "blur" (HBlur, run) false
        |> removeEventListener Document "visibilitychange" (HVisibilityChange, run) false
  | DevToolsLayer =>
      r |> clearInterval run
  | ResizeLayer =>
      r |> removeEventListener Window "resize" (HResize, run) false
  | DragDropLayer =>
      r |> removeEventListener Document "dragstart" (HDragStart, run) true
        |> removeEventListener Document "drop" (HDrop, run) true
  | SelectionLayer =>
      r |> removeEventListener Document "selectstart" (HSelectStart, run) true
        |> removeEventListener Document "copy" (HCopy, run) true
        |> removeEventListener Document "cut" (HCut, run) true
  end.

(** [useEffect(() => { if (!enabled) return; ...; return cleanup })]:
    enabling runs the body, disabling runs the returned function. *)
Definition enable (layer : Layer) (run : nat) (r : Registry) : Registry :=
  attach layer run r.

Definition disable (layer : Layer) (run : nat) (r : Registry) : Registry :=
  cleanup layer run r.

(** Runs [first], [first + 1], ... of enabling and then disabling a layer. *)
Fixpoint toggle (layer : Layer) (first count : nat) (r : Registry) : Registry :=
  match count with
  | O => r
  | S n => toggle layer (S first) n (disable layer first (enable layer first r))
  end.

Definition event_target (ev : DomEvent) : Target :=
  match ev with
  | EvFocus | EvBlur | EvResize _ _ => Window
  | _ => Document
  end.

Definition event_type (ev : DomEvent) : string :=
  match ev with
  | EvContextMenu => "contextmenu"
  | EvKeyDown _ => "keydown"
  | EvKeyUp _ => "keyup"
  | EvFocus => "focus"
  | EvBlur => "blur"
  | EvVisibilityChange _ => "visibilitychange"
  | EvResize _ _ => "resize"
  | EvDragStart => "dragstart"
  | EvDrop => "drop"
  | EvSelectStart => "selectstart"
  | EvCopy => "copy"
  | EvCut => "cut"
  end.

Definition listens (l : Listener) (ev : DomEvent) : bool :=
  target_eqb (target l) (event_target ev) && (etype l =? event_type ev).

(** What the browser changes before it calls the listeners. *)
Definition host_update (ev : DomEvent) (w : World) : World :=
  match ev with
  | EvVisibilityChange hidden => set_docHidden hidden w
  | _ => w
  end.

(** The browser delivers [ev] to the registered listeners, in
    registration order. *)
Definition dispatch (r : Registry) (ev : DomEvent) (w : World) : World :=
  fold_left
    (fun w l => if listens l ev then run_handler (fst (callback l)) ev w else w)
    (listeners r) (host_update ev w).

(** *** Everything that can happen to a mounted hook *)

Inductive Input :=
| Deliver (h : HandlerName) (ev : DomEvent)   (* a registered listener runs *)
| Poll (s : Sample)                           (* [checkDevTools] runs *)
| Elapse (dt : N)                             (* time passes, timeouts fire *)
| ApiShowViolation (message : string)         (* the returned [showViolation] *)
| ApiLogEvent (eventType : EventType) (details : list (string * Js.value))
| ApiSetIsFocused (b : bool)                  (* the returned [setIsFocused] *)
| Surface (c : option Style)                  (* the element is (un)mounted or restyled *)
| Clipboard (api : ClipboardApi).             (* the permission changes *)

Definition apply_input (i : Input) (w : World) : World :=
  match i with
  | Deliver h ev => run_handler h ev (host_update ev w)
  | Poll s => checkDevTools s w
  | Elapse dt => advance dt w
  | ApiShowViolation message => showViolation message w
  | ApiLogEvent eventType details => logEvent eventType details w
  | ApiSetIsFocused b => setIsFocused b w
  | Surface c => set_content c w
  | Clipboard api => set_clipboard api (clipboardText w) (rejections w) w
  end.

Definition run (inputs : list Input) (w : World) : World :=
  fold_left (fun w i => apply_input i w) inputs w.

(** The states of a hook mounted in some initial configuration, after any
    interleaving of inputs: every input is allowed in every state, the
    returned [showViolation] with any string. *)
Inductive reachable : World -> Prop :=
| reachable_mount (outerWidth outerHeight : Z) (surface : option Style)
    (api : ClipboardApi) :
    reachable (mount outerWidth outerHeight surface api)
| reachable_input (i : Input) (w : World) :
    reachable w -> reachable (apply_input i w).

End SecurityLayers.

(** ** Signed-URL probing: the [testAccess] script *)

Module SignedUrlProbe.

Definition publicId : string :=
  "pdf-viewer/0782da2b-81c6-430b-b89d-f11524bd281b/5c6e308a-ef44-4d03-a997-2812b0361336".

Definition resourceTypes : list string := ["image"; "raw"; "auto"].
Definition types : list string := ["upload"; "authenticated"].

(** What [https.get] reports for one request. *)
Inductive Response :=
| Status (statusCode : nat)
| NetworkError (message : string).

(** The collaborators: the URL signer, the network, the environment. *)
Record Env := {
  (* [cloudinary.url(publicId, { resource_type, type, sign_url: true, secure: true })] *)
  url : string -> string -> string -> string;
  (* the answer to the [n]-th request of the run, made for the given URL *)
  get : nat -> string -> Response;
  cloud_name : string
}.

Inductive Line :=
| Log (text : string)
| LogStatus (statusCode : nat)          (* [`Status: ${res.statusCode}`] *)
| LogError (message : string).          (* [console.error('Error:', e.message)] *)

Record Run := {
  console : list Line;
  requests : list string                 (* the URLs fetched, oldest first *)
}.

Definition start : Run := {| console := []; requests := [] |}.

Definition print (l : Line) (st : Run) : Run :=
  {| console := console st ++ [l]; requests := requests st |}.

Definition fetch (u : string) (st : Run) : Run :=
  {| console := console st; requests := requests st ++ [u] |}.

Definition newline : string := String (ascii_of_nat 10) "".

Definition testing_line (rType type : string) : Line :=
  Log (newline ++ "--- Testing resource_type: " ++ rType ++ ", type: " ++ type ++ " ---").

Definition success_line : Line := Log "SUCCESS! This combination works.".
Definition failed_line : Line := Log "Failed.".

(** What the two callbacks of [https.get] print. *)
Definition on_response (res : Response) : list Line :=
  match res with
  | Status statusCode =>
      [LogStatus statusCode;
       if Nat.eqb statusCode 200 then success_line else failed_line]
  | NetworkError message => [LogError message]
  end.

(** The body of the inner loop. *)
Definition probe (env : Env) (rType type : string) (st : Run) : Run :=
  let st := print (testing_line rType type) st in
  let u := url env publicId rType type in
  let st := print (Log ("Generated URL: " ++ u)) st in
  let n := List.length (requests st) in
  let st := fetch u st in
  fold_left (fun st l => print l st) (on_response (get env n u)) st.

Definition testAccess (env : Env) : Run :=
  let st := print (Log "Testing Cloudinary Access...") start in
  let st := print (Log ("Cloud Name: " ++ cloud_name env)) st in
  fold_left
    (fun st rType => fold_left (fun st type => probe env rType type st) types st)
    resourceTypes st.

(** The combinations in the order resource-type outer, delivery-type
    inner, numbered from 0. *)
Definition combinations : list (string * string) := list_prod resourceTypes types.

Definition numbered {A : Type} (l : list A) : list (nat * A) :=
  combine (seq 0 (List.length l)) l.

(** What one probe contributes to the console, given its request number. *)
Definition probe_lines (env : Env) (entry : nat * (string * string)) : list Line :=
  let '(n, (rType, type)) := entry in
  let u := url env publicId rType type in
  [testing_line rType type; Log ("Generated URL: " ++ u)] ++ on_response (get env n u).

End SignedUrlProbe.

(** ** The vocabulary of the statements *)

Module Statements.

Import SecurityLayers.

(** *** Keyboard rules *)

(** The blocked combinations as the specification lists them: each rule
    names a key, requires ctrl or meta or leaves them open, and requires
    shift present or requires it absent.  A letter key is named by either
    of its cases; bare [F12] is the key [F12] with ctrl and meta left open
    and shift absent. *)
Definition ctrl_or_meta (e : KeyEvent) : Prop :=
  ctrlKey e = true \/ metaKey e = true.

Definition letter (e : KeyEvent) (lower upper : string) : Prop :=
  key e = lower \/ key e = upper.

Inductive listed (e : KeyEvent) : string -> Prop :=
| listed_print :
    ctrl_or_meta e -> shiftKey e = false -> letter e "p" "P" -> listed e "print"
| listed_save :
    ctrl_or_meta e -> shiftKey e = false -> letter e "s" "S" -> listed e "save"
| listed_copy :
    ctrl_or_meta e -> shiftKey e = false -> letter e "c" "C" -> listed e "copy"
| listed_select_all :
    ctrl_or_meta e -> shiftKey e = false -> letter e "a" "A" ->
    listed e "select_all"
| listed_view_source :
    ctrl_or_meta e -> shiftKey e = false -> letter e "u" "U" ->
    listed e "view_source"
| listed_devtools_i :
    ctrl_or_meta e -> shiftKey e = true -> letter e "i" "I" -> listed e "devtools"
| listed_devtools_j :
    ctrl_or_meta e -> shiftKey e = true -> letter e "j" "J" -> listed e "devtools"
| listed_devtools_c :
    ctrl_or_meta e -> shiftKey e = true -> letter e "c" "C" -> listed e "devtools"
| listed_screenshot :
    ctrl_or_meta e -> shiftKey e = true -> letter e "s" "S" ->
    listed e "screenshot"
| listed_F12 :
    shiftKey e = false -> key e = "F12" -> listed e "devtools".

(** The combinations the handler blocks: the listed ones, and [F12] under
    any modifiers. *)
Definition blocks (e : KeyEvent) (a : string) : Prop :=
  listed e a \/ (key e = "F12" /\ a = "devtools").

(** The event the handler reports for a blocked combination. *)
Definition blocked_event (a : string) (e : KeyEvent) (w : World) : SecurityEvent :=
  {| type := KEYBOARD_BLOCKED; timestamp := now w;
     details := [("action", Js.Str a); ("key", Js.Str (key e))] |}.

(** *** States of the hook *)


(** Two states that report the same events and the same DevTools flag. *)
Definition same_report (w w' : World) : Prop :=
  sink w' = sink w /\ triggerCount w' = triggerCount w /\ devToolsOpen w' = devToolsOpen w.

(** Pending timeouts that clear the banner. *)
Definition is_clear (entry : N * TimerCallback) : bool :=
  match snd entry with
  | ClearViolation => true
  | _ => false
  end.

Definition clear_due (target : N) (entry : N * TimerCallback) : bool :=
  is_clear entry && (fst entry <=? target)%N.

Definition clear_after (target : N) (entry : N * TimerCallback) : bool :=
  is_clear entry && (target <? fst entry)%N.

(** No clear of the banner is pending. *)
Definition idle_banner (w : World) : Prop := filter is_clear (timers w) = [].

(** The message stays visible for a full 3000 ms from the state [w] on. *)
Definition visible_full_window (message : string) (w : World) : Prop :=
  forall e, (e < 3000)%N -> securityViolation (advance e w) = Js.Str message.

(** The protected element after [hideContentInstantly]. *)
Definition hidden_from (w : World) : option Style :=
  match content w with
  | Some _ => Some hidden_style
  | None => None
  end.

(** The clipboard after the overwrite attempt: replaced where the browser
    grants it, untouched otherwise, and nothing thrown either way. *)
Definition clipboard_attempted (w w' : World) : Prop :=
  uncaught w' = uncaught w
  /\ clipboardText w' =
       match clipboardApi w with
       | ClipGranted => "Screenshot disabled - This content is protected"
       | ClipMissing | ClipDenied => clipboardText w
       end.

(** The five effects the specification lists for a PrintScreen key event
    that takes the state [w] to [w']. *)
Definition printscreen_response (w w' : World) : Prop :=
  content w' = hidden_from w
  /\ clipboard_attempted w w'
  /\ sink w' = (sink w ++ [{| type := PRINTSCREEN_BLOCKED; timestamp := now w;
                              details := [] |}])%list
  /\ securityViolation w' = Js.Str "Screenshots are disabled"
  /\ In ((now w + 2000)%N, CallShowContent) (timers w').

(** The arrow function that one run of the keyboard effect registers for
    [keyup]. *)
Definition keyup_listener (run : nat) : Listener :=
  {| target := Document; etype := "keyup"; callback := (HKeyUp, run); capture := true |}.

End Statements.

(** ** Concrete configurations used to exercise the statements *)

Module Scenarios.

Import AccessGate.

(** An issuer that accepts the token "good" for subject "alice" and the
    token "fresh" for subject "bob"; a store in which "alice" is disabled
    without a stated reason and "bob" has no record. *)
Definition gate_env : Env :=
  {| verifyIdToken := fun token =>
       if token =? "good" then Resolved {| uid := "alice" |}
       else if token =? "fresh" then Resolved {| uid := "bob" |}
       else Rejected "auth/argument-error";
     getUserDoc := fun subject =>
       if subject =? "alice"
       then Resolved (Some {| disabled := Js.Bool true; disabledReason := Js.Undefined |})
       else Resolved None;
     next := None |}.

Definition request_with (header : string) : Request := {| authorization := Some header |}.

Import SecurityLayers Statements.

(** A viewer whose protected element is mounted and shown. *)
Definition viewer : World := mount 1280 800 (Some shown_style) ClipGranted.

Definition key_press (k : string) : KeyEvent :=
  {| key := k; ctrlKey := false; metaKey := false; shiftKey := false |}.

Definition ctrl_press (k : string) : KeyEvent :=
  {| key := k; ctrlKey := true; metaKey := false; shiftKey := false |}.

(** The window loses focus, the user presses ctrl+P half a second later and
    comes back to the window after another second. *)
Definition blur_print_focus : list Input :=
  [Deliver HBlur EvBlur; Elapse 500;
   Deliver HKeyDown (EvKeyDown (ctrl_press "p")); Elapse 1000;
   Deliver HFocus EvFocus].

(** Measurements with a docked inspector: 400 px of the window's width are
    not available to the page. *)
Definition docked : Sample :=
  {| outerWidth := 1280; innerWidth := 880; outerHeight := 800; innerHeight := 720;
     duration := 1 # 2; debugDuration := 0 |}.

(** Measurements with a detached inspector that slows the console down. *)
Definition slow_console : Sample :=
  {| outerWidth := 1280; innerWidth := 1280; outerHeight := 800; innerHeight := 720;
     duration := 250; debugDuration := 0 |}.

(** Measurements of an undisturbed page. *)
Definition quiet : Sample :=
  {| outerWidth := 1280; innerWidth := 1280; outerHeight := 800; innerHeight := 720;
     duration := 1 # 4; debugDuration := 0 |}.

(** A right-click, and a copy attempt one second later. *)
Definition two_violations : list Input :=
  [Deliver HContextMenu EvContextMenu; Elapse 1000; Deliver HCopy EvCopy].

(** The window is focused again; 50 ms later, while the restore is pending,
    the viewer is closed and the protected element is gone. *)
Definition focus_then_teardown : list Input :=
  [Deliver HFocus EvFocus; Elapse 50; Surface None; Elapse 50].

(** PrintScreen is pressed; the viewer is closed 2050 ms later, after the
    2000 ms timeout ran [showContent] and before its restore fires. *)
Definition printscreen_then_teardown : list Input :=
  [Deliver HKeyDown (EvKeyDown (key_press "PrintScreen")); Elapse 2050;
   Surface None; Elapse 50].

(** The listeners left after the keyboard layer was enabled and disabled
    once. *)
Definition keyboard_toggled_once : Registry :=
  disable KeyboardLayer 0 (enable KeyboardLayer 0 no_listeners).

(** A platform-menu key. *)
Definition meta_key : KeyEvent := key_press "Meta".

(** ctrl+A on the mounted viewer. *)
Definition select_all_press : KeyEvent := ctrl_press "a".

(** F12 pressed while shift is held. *)
Definition shift_F12 : KeyEvent :=
  {| key := "F12"; ctrlKey := false; metaKey := false; shiftKey := true |}.

End Scenarios.

(** ** Observations on runs of the hook *)

Module Observations.

Import SecurityLayers Statements.

(** Every pending timeout lies in the future. *)
Definition timers_ahead (w : World) : Prop :=
  Forall (fun x => (now w < fst x)%N) (timers w).

(** The counter the hook returns counts the events handed to the sink. *)
Definition counted (w : World) : Prop := triggerCount w = List.length (sink w).

(** The events are in the order of their timestamps, none from the future. *)
Definition chronological (w : World) : Prop :=
  StronglySorted (fun a b => (timestamp a <= timestamp b)%N) (sink w)
  /\ Forall (fun ev => (timestamp ev <= now w)%N) (sink w).

Definition well_formed (w : World) : Prop :=
  timers_ahead w /\ counted w /\ chronological w.

(** No pending [showContent] is overdue. *)
Definition shows_ahead (w : World) : Prop :=
  Forall (fun x => snd x = CallShowContent -> (now w <= fst x)%N) (timers w).

(** The pending timeout makes the element visible by the instant [target]:
    a restore that is due, or a [showContent] whose restore is due. *)
Definition restore_due (target : N) (entry : N * TimerCallback) : bool :=
  match snd entry with
  | RestoreStyle => (fst entry <=? target)%N
  | CallShowContent => (fst entry + 100 <=? target)%N
  | ClearViolation => false
  end.

(** Only clears of the banner are pending: nothing is about to show the
    element. *)
Definition quiet_surface (w : World) : Prop :=
  Forall (fun x => snd x = ClearViolation) (timers w).

(** A run of resize notifications, each with the new outer size. *)
Definition resizes (sizes : list (Z * Z)) (w : World) : World :=
  fold_left (fun w size => handleResize (fst size) (snd size) w) sizes w.

(** The change from one size to the next exceeds 500 px on some axis. *)
Definition big_jump (width height newWidth newHeight : Z) : bool :=
  (Z.abs (newWidth - width) >? 500)%Z || (Z.abs (newHeight - height) >? 500)%Z.

(** The number of big jumps along a run of sizes that starts from
    [width] x [height]. *)
Fixpoint jumps (width height : Z) (sizes : list (Z * Z)) : nat :=
  match sizes with
  | [] => 0
  | (newWidth, newHeight) :: rest =>
      (if big_jump width height newWidth newHeight then 1 else 0)
      + jumps newWidth newHeight rest
  end.

(** The number of changes from false to true along a run of verdicts that
    starts from [previous]. *)
Fixpoint rising (previous : bool) (verdicts : list bool) : nat :=
  match verdicts with
  | [] => 0
  | v :: rest => (if v && negb previous then 1 else 0) + rising v rest
  end.

(** The banner text of a blocked key. *)
Definition keyboard_message (e : KeyEvent) (actionTag : string) : string :=
  if key e =? "F12" then "Developer tools are disabled"
  else if actionTag =? "select_all" then "select all is disabled"
  else if actionTag =? "view_source" then "view source is disabled"
  else actionTag ++ " is disabled".

(** Neither PrintScreen nor a platform-menu key. *)
Definition plain_key (e : KeyEvent) : Prop :=
  key e <> "PrintScreen" /\ key e <> "Meta" /\ key e <> "OS".


(** A banner that shows has a clear pending within 3000 ms. *)
Definition banner_scheduled (w : World) : Prop :=
  securityViolation w = Js.Null
  \/ existsb (fun x => (fst x <=? now w + 3000)%N) (filter is_clear (timers w)) = true.

End Observations.

(** ** User records: [syncUser] and [updateProfile] *)

Module UserController.

(** The fields of the decoded token ([req.user]) that the controllers
    read. *)
Record User := {
  uid : string;
  email : Js.value;
  name : Js.value;
  picture : Js.value
}.

(** The body of a profile update ([req.body]). *)
Record ProfileBody := {
  displayName : Js.value;
  photoURL : Js.value
}.

(** A document: its fields, by name. *)
Definition Doc := list (string * Js.value).

(** [data.k]: [undefined] for a field that is not there. *)
Fixpoint field (k : string) (doc : Doc) : Js.value :=
  match doc with
  | [] => Js.Undefined
  | (k', v) :: rest => if k' =? k then v else field k rest
  end.

(** One field written: replaced where it is, added where it is not. *)
Fixpoint set_field (k : string) (v : Js.value) (doc : Doc) : Doc :=
  match doc with
  | [] => [(k, v)]
  | (k', v') :: rest =>
      if k' =? k then (k, v) :: rest else (k', v') :: set_field k v rest
  end.

Definition merge (data doc : Doc) : Doc :=
  fold_left (fun doc kv => set_field (fst kv) (snd kv) doc) data doc.

(** The [users] collection. *)
Record Store := { docs : string -> option Doc }.

Definition write (id : string) (doc : Doc) (db : Store) : Store :=
  {| docs := fun id' => if id' =? id then Some doc else docs db id' |}.

(** The calls made on the store. *)
Inductive Op :=
| OpGet (id : string)
| OpSet (id : string) (data : Doc)
| OpUpdate (id : string) (data : Doc).

(** The world around the controllers: which calls on the store reject
    (outage, a value the store does not accept), and the clock. *)
Record Env := {
  fault : Op -> option string;
  clock : string                         (* [new Date().toISOString()] *)
}.

Inductive awaited (A : Type) :=
| Resolved (a : A)
| Rejected (err : string).
Arguments Resolved {A} a.
Arguments Rejected {A} err.

(** [doc(id).get()]: [None] when [!userDoc.exists]. *)
Definition get (env : Env) (db : Store) (id : string) : awaited (option Doc) :=
  match fault env (OpGet id) with
  | Some err => Rejected err
  | None => Resolved (docs db id)
  end.

(** [doc(id).set(data)]: creates the document or replaces it. *)
Definition set (env : Env) (db : Store) (id : string) (data : Doc) : awaited Store :=
  match fault env (OpSet id data) with
  | Some err => Rejected err
  | None => Resolved (write id data db)
  end.

(** [doc(id).update(data)]: rejects when the document does not exist,
    writes the given fields and keeps the others when it does. *)
Definition update (env : Env) (db : Store) (id : string) (data : Doc) : awaited Store :=
  match fault env (OpUpdate id data) with
  | Some err => Rejected err
  | None =>
      match docs db id with
      | Some doc => Resolved (write id (merge data doc) db)
      | None => Rejected "NOT_FOUND"
      end
  end.

Inductive Body :=
| Synced (message : string) (user : User)
| Message (message : string).

Inductive Effect :=
| ConsoleError (label err : string)
| Respond (status : nat) (body : Body).

(** The [catch] blocks. *)
Definition on_error (label err : string) : list Effect :=
  [ConsoleError label err; Respond 500 (Message "Internal Server Error")].

(** [await] inside [try]: a rejection goes to the [catch] block, with the
    store as it is at that point. *)
Definition await {A : Type} (label : string) (db : Store) (r : awaited A)
    (k : A -> Store * list Effect) : Store * list Effect :=
  match r with
  | Resolved a => k a
  | Rejected err => (db, on_error label err)
  end.

Notation "x <- r 'in_try' label , db ;; k" :=
  (await label db r (fun x => k))
  (at level 200, r at level 100, label at level 0, db at level 0,
   right associativity, only parsing).

Definition syncUser (env : Env) (reqUser : option User) (db : Store)
  : Store * list Effect :=
  match reqUser with
  | None => (db, on_error "Error syncing user:" "TypeError")
  | Some user =>
      userDoc <- get env db (uid user) in_try "Error syncing user:", db ;;
      let ok := Respond 200 (Synced "User synced" user) in
      match userDoc with
      | Some _ => (db, [ok])
      | None =>
          db' <- set env db (uid user)
                   [("email", email user);
                    ("name", Js.or_else (name user) (Js.Str ""));
                    ("picture", Js.or_else (picture user) (Js.Str ""));
                    ("createdAt", Js.Str (clock env));
                    ("role", Js.Str "user")]
                 in_try "Error syncing user:", db ;;
          (db', [ok])
      end
  end.

Definition updateProfile (env : Env) (reqUser : option User)
    (reqBody : option ProfileBody) (db : Store) : Store * list Effect :=
  match reqUser, reqBody with
  | Some user, Some body =>
      db' <- update env db (uid user)
               [("name", displayName body); ("picture", photoURL body)]
             in_try "Error updating profile:", db ;;
      (db', [Respond 200 (Message "Profile updated successfully")])
  | _, _ => (db, on_error "Error updating profile:" "TypeError")
  end.

(** [userDoc.data()] as the access gate reads it. *)
Definition user_data (doc : Doc) : AccessGate.UserData :=
  {| AccessGate.disabled := field "disabled" doc;
     AccessGate.disabledReason := field "disabledReason" doc |}.

(** The access gate in front of this store. *)
Definition gate_env (env : Env)
    (verify : string -> AccessGate.awaited AccessGate.DecodedToken)
    (next : option string) (db : Store) : AccessGate.Env :=
  {| AccessGate.verifyIdToken := verify;
     AccessGate.getUserDoc := fun id =>
       match get env db id with
       | Resolved doc => AccessGate.Resolved (option_map user_data doc)
       | Rejected err => AccessGate.Rejected err
       end;
     AccessGate.next := next |}.

(** The responses among the effects. *)
Definition responses (l : list Effect) : list (nat * Body) :=
  flat_map (fun e => match e with Respond st b => [(st, b)] | _ => [] end) l.

End UserController.

(** ** The API base URL of the frontend *)

Module ApiConfig.

(** [s.endsWith(c)] for a one-character suffix. *)
Fixpoint endsWith (s : string) (c : ascii) : bool :=
  match s with
  | EmptyString => false
  | String a EmptyString => Ascii.eqb a c
  | String _ rest => endsWith rest c
  end.

(** [s.slice(0, -1)]. *)
Fixpoint dropLast (s : string) : string :=
  match s with
  | EmptyString => EmptyString
  | String _ EmptyString => EmptyString
  | String a rest => String a (dropLast rest)
  end.

Definition default_base : string := "http://localhost:5000".

(** [import.meta.env.VITE_API_BASE_URL || 'http://localhost:5000']. *)
Definition rawBaseUrl (configured : option string) : string :=
  match configured with
  | Some s => if s =? "" then default_base else s
  | None => default_base
  end.

Definition API_BASE_URL (configured : option string) : string :=
  let rawBaseUrl := rawBaseUrl configured in
  if endsWith rawBaseUrl "/" then dropLast rawBaseUrl else rawBaseUrl.

End ApiConfig.

(** ** Observations on the access gate *)

Module GateObservations.

Import AccessGate.

Fixpoint has_space (s : string) : bool :=
  match s with
  | EmptyString => false
  | String c rest => Ascii.eqb c " " || has_space rest
  end.

(** The responses among the effects of the middleware. *)
Definition responses (l : list Effect) : list (nat * Body) :=
  flat_map (fun e => match e with Respond st b => [(st, b)] | _ => [] end) l.

End GateObservations.

(** ** Observations on the user store *)

Module UserObservations.

Import UserController.


(** The document [syncUser] creates. *)
Definition fresh_doc (env : Env) (user : User) : Doc :=
  [("email", email user);
   ("name", Js.or_else (name user) (Js.Str ""));
   ("picture", Js.or_else (picture user) (Js.Str ""));
   ("createdAt", Js.Str (clock env));
   ("role", Js.Str "user")].

(** The fields [updateProfile] writes. *)
Definition profile_data (body : ProfileBody) : Doc :=
  [("name", displayName body); ("picture", photoURL body)].

End UserObservations.

(** ** More concrete configurations *)

Module MoreScenarios.

Import AccessGate.

(** The issuer of [Scenarios.gate_env] in front of a user store that is
    down. *)
Definition outage_env : Env :=
  {| verifyIdToken := verifyIdToken Scenarios.gate_env;
     getUserDoc := fun _ => Rejected "UNAVAILABLE";
     next := None |}.

(** The same issuer and store as [Scenarios.gate_env], with a downstream
    handler that throws. *)
Definition throwing_env : Env :=
  {| verifyIdToken := verifyIdToken Scenarios.gate_env;
     getUserDoc := getUserDoc Scenarios.gate_env;
     next := Some "boom" |}.

Import SecurityLayers.



Definition read_only_store : UserController.Env :=
  {| UserController.fault := fun op =>
       match op with
       | UserController.OpSet _ _ => Some "PERMISSION_DENIED"
       | _ => None
       end;
     UserController.clock := "2024-05-01T09:30:00.000Z" |}.

Definition no_users : UserController.Store :=
  {| UserController.docs := fun _ => None |}.

(** A token with an email and a picture and no name. *)
Definition carol : UserController.User :=
  {| UserController.uid := "carol";
     UserController.email := Js.Str "carol@example.org";
     UserController.name := Js.Undefined;
     UserController.picture := Js.Str "https://example.org/carol.png" |}.

End MoreScenarios.

(** ** The event loop *)

Section TimerFacts.

Import SecurityLayers Statements.

Lemma run_fuel_invariant (Inv : World -> Prop) :
  (forall m rest w, Inv w -> Inv (fire m rest w)) ->
  (forall t w, Inv w -> Inv (set_now t w)) ->
  forall fuel target w, Inv w -> Inv (run_fuel fuel target w).
Proof.
  intros Hfire Hnow. induction fuel as [|fuel IH]; intros target w Hw; simpl.
  - exact Hw.
  - destruct (next_due target (timers w)) as [[m rest]|].
    + apply IH. now apply Hfire.
    + now apply Hnow.
Qed.

(** A property kept by every firing and by the clock is kept by the
    passing of time. *)
Lemma advance_invariant (Inv : World -> Prop) :
  (forall m rest w, Inv w -> Inv (fire m rest w)) ->
  (forall t w, Inv w -> Inv (set_now t w)) ->
  forall dt w, Inv w -> Inv (advance dt w).
Proof.
  intros Hfire Hnow dt w Hw. unfold advance, run_until.
  now apply run_fuel_invariant.
Qed.

Ltac extract_min_cases l IH :=
  induction l as [|entry l IH]; intros m rest H; simpl in H; [discriminate|];
  destruct (extract_min l) as [[m' rest']|] eqn:E;
  [ destruct (fst entry <=? fst m')%N eqn:Hle; injection H as <- <-
  | injection H as <- <- ].

Lemma extract_min_none (l : list (N * TimerCallback)) :
  extract_min l = None -> l = [].
Proof.
  destruct l as [|entry l]; simpl; [reflexivity|].
  destruct (extract_min l) as [[m rest]|]; [|discriminate].
  destruct (fst entry <=? fst m)%N; discriminate.
Qed.

Lemma extract_min_existsb (p : N * TimerCallback -> bool) (l : list (N * TimerCallback)) :
  forall m rest, extract_min l = Some (m, rest) ->
  existsb p l = p m || existsb p rest.
Proof.
  extract_min_cases l IH; simpl.
  - reflexivity.
  - rewrite (IH _ _ eq_refl). destruct (p entry), (p m'); reflexivity.
  - apply extract_min_none in E. now subst l.
Qed.

Lemma extract_min_filter (p : N * TimerCallback -> bool) (l : list (N * TimerCallback)) :
  forall m rest, extract_min l = Some (m, rest) ->
  p m = false -> filter p rest = filter p l.
Proof.
  extract_min_cases l IH; intros Hp; simpl.
  - now rewrite Hp.
  - now rewrite (IH _ _ eq_refl Hp).
  - apply extract_min_none in E. subst l. simpl. now rewrite Hp.
Qed.

Lemma extract_min_least (l : list (N * TimerCallback)) :
  forall m rest, extract_min l = Some (m, rest) ->
  Forall (fun x => (fst m <= fst x)%N) l.
Proof.
  extract_min_cases l IH.
  - apply N.leb_le in Hle. constructor; [lia|].
    eapply Forall_impl; [|exact (IH _ _ eq_refl)]. simpl. intros x Hx. lia.
  - apply N.leb_gt in Hle. constructor; [lia|]. exact (IH _ _ eq_refl).
  - apply extract_min_none in E. subst l. constructor; [lia|constructor].
Qed.

Lemma extract_min_weight (l : list (N * TimerCallback)) :
  forall m rest, extract_min l = Some (m, rest) ->
  weight l = (weight_cb (snd m) + weight rest)%nat.
Proof.
  unfold weight. extract_min_cases l IH; simpl.
  - reflexivity.
  - rewrite (IH _ _ eq_refl). lia.
  - apply extract_min_none in E. now subst l.
Qed.

Lemma next_due_some (target : N) (l : list (N * TimerCallback)) m rest :
  next_due target l = Some (m, rest) ->
  extract_min l = Some (m, rest) /\ (fst m <= target)%N.
Proof.
  unfold next_due. destruct (extract_min l) as [[m' rest']|]; [|discriminate].
  destruct (fst m' <=? target)%N eqn:Hle; [|discriminate].
  intros H. injection H as <- <-. apply N.leb_le in Hle. now split.
Qed.

(** When nothing is due, every pending timeout lies after [target]. *)
Lemma next_due_none (target : N) (l : list (N * TimerCallback)) :
  next_due target l = None -> Forall (fun x => (target < fst x)%N) l.
Proof.
  unfold next_due. destruct (extract_min l) as [[m rest]|] eqn:E.
  - destruct (fst m <=? target)%N eqn:Hle; [discriminate|]. intros _.
    apply N.leb_gt in Hle.
    eapply Forall_impl; [|exact (extract_min_least _ _ _ E)]. simpl. intros x Hx. lia.
  - intros _. apply extract_min_none in E. subst l. constructor.
Qed.

Lemma next_due_idle (target : N) (l : list (N * TimerCallback)) :
  Forall (fun x => (target < fst x)%N) l -> next_due target l = None.
Proof.
  intros Hl. destruct (next_due target l) as [[m rest]|] eqn:E; [|reflexivity].
  apply next_due_some in E. destruct E as [E Hm].
  assert (Hin : existsb (fun x => (fst x <=? target)%N) l = true).
  { rewrite (extract_min_existsb _ _ _ _ E).
    apply N.leb_le in Hm. now rewrite Hm. }
  apply existsb_exists in Hin. destruct Hin as (x & Hx & Hxt).
  rewrite Forall_forall in Hl. specialize (Hl x Hx). apply N.leb_le in Hxt. lia.
Qed.

(** What a callback leaves pending: the timeouts that were, and at most the
    one that [showContent] creates. *)
Lemma timers_run_timer (cb : TimerCallback) (w : World) :
  timers (run_timer cb w) = timers w
  \/ (cb = CallShowContent
      /\ timers (run_timer cb w) = (timers w ++ [((now w + 100)%N, RestoreStyle)])%list).
Proof.
  destruct cb; simpl; auto.
  - unfold showContent. destruct (content w); auto.
  - destruct (content w); auto.
Qed.

Lemma weight_app (l l' : list (N * TimerCallback)) :
  weight (l ++ l') = (weight l + weight l')%nat.
Proof. unfold weight. now rewrite map_app, list_sum_app. Qed.

Lemma weight_fire (target : N) (w : World) m rest :
  next_due target (timers w) = Some (m, rest) ->
  (weight (timers (fire m rest w)) < weight (timers w))%nat.
Proof.
  intros H. apply next_due_some in H. destruct H as [H _].
  rewrite (extract_min_weight _ _ _ H). unfold fire.
  destruct (timers_run_timer (snd m) (set_timers rest (set_now (N.max (now w) (fst m)) w)))
    as [-> | [Hcb ->]]; simpl.
  - destruct (snd m); simpl; lia.
  - rewrite Hcb, weight_app. unfold weight at 2. simpl. lia.
Qed.

(** With fuel above the weight the loop ends by itself, whatever the fuel. *)
Lemma run_fuel_enough (fuel fuel' : nat) (target : N) (w : World) :
  (weight (timers w) < fuel)%nat -> (weight (timers w) < fuel')%nat ->
  run_fuel fuel target w = run_fuel fuel' target w.
Proof.
  revert fuel' w. induction fuel as [|fuel IH]; intros fuel' w H H'; [lia|].
  destruct fuel' as [|fuel']; [lia|]. simpl.
  destruct (next_due target (timers w)) as [[m rest]|] eqn:E; [|reflexivity].
  pose proof (weight_fire target w m rest E). apply IH; lia.
Qed.

Lemma run_until_idle (target : N) (w : World) :
  next_due target (timers w) = None -> run_until target w = set_now target w.
Proof. unfold run_until. simpl. now intros ->. Qed.

Lemma run_until_fire (target : N) (w : World) m rest :
  next_due target (timers w) = Some (m, rest) ->
  run_until target w = run_until target (fire m rest w).
Proof.
  intros E. pose proof (weight_fire target w m rest E).
  unfold run_until at 1. cbn [run_fuel]. rewrite E.
  unfold run_until. apply run_fuel_enough; lia.
Qed.

(** Induction along the firings of [run_until]. *)
Lemma run_until_ind (P : World -> World -> Prop) (target : N) :
  (forall w, next_due target (timers w) = None -> P w (set_now target w)) ->
  (forall w m rest r, next_due target (timers w) = Some (m, rest) ->
                      P (fire m rest w) r -> P w r) ->
  forall w, P w (run_until target w).
Proof.
  intros Hidle Hfire w.
  remember (weight (timers w)) as n eqn:En.
  revert w En. induction n as [n IH] using lt_wf_ind. intros w En.
  destruct (next_due target (timers w)) as [[m rest]|] eqn:E.
  - rewrite (run_until_fire target w m rest E).
    apply (Hfire w m rest _ E).
    pose proof (weight_fire target w m rest E).
    apply (IH (weight (timers (fire m rest w)))); [lia | reflexivity].
  - rewrite (run_until_idle target w E). now apply Hidle.
Qed.

Lemma now_fire (w : World) m rest : now (fire m rest w) = N.max (now w) (fst m).
Proof.
  unfold fire. destruct (snd m); simpl; try reflexivity.
  - unfold showContent. now destruct (content _).
  - now destruct (content _).
Qed.

(** The loop always comes to its end: the clock reads [target] and no
    timeout that was due is left pending. *)
Lemma run_until_done (target : N) (w : World) :
  now (run_until target w) = target
  /\ Forall (fun x => (target < fst x)%N) (timers (run_until target w)).
Proof.
  apply (run_until_ind (fun _ r => now r = target
                                   /\ Forall (fun x => (target < fst x)%N) (timers r))).
  - intros w' E. split; [reflexivity|]. now apply next_due_none.
  - intros w' m rest r _ H. exact H.
Qed.

Lemma now_advance (dt : N) (w : World) : now (advance dt w) = (now w + dt)%N.
Proof. unfold advance. apply run_until_done. Qed.

End TimerFacts.

(** ** Properties of the access gate *)

Section AccessGateFacts.

Import AccessGate.

Lemma split_nonempty (sep : ascii) (s : string) : Js.split sep s <> [].
Proof.
  destruct s as [|c r]; simpl; [discriminate|].
  destruct (Ascii.eqb c sep); [discriminate|].
  destruct (Js.split sep r); discriminate.
Qed.

Lemma prefix_cons (c : ascii) (p s : string) :
  String.prefix (String c p) s = true ->
  exists r, s = String c r /\ String.prefix p r = true.
Proof.
  destruct s as [|d r]; simpl; [discriminate|].
  destruct (ascii_dec c d) as [->|]; [|discriminate].
  intros H. now exists r.
Qed.

(** Ahead of the first space a header that passes the guard has the scheme
    name, so index 1 of the split exists: the token is never [undefined]. *)
Lemma bearer_token_defined (h : string) :
  Js.startsWith h "Bearer " = true ->
  exists rest, Js.split " " h = "Bearer" :: token_of h :: rest.
Proof.
  unfold Js.startsWith, token_of. intros H.
  repeat (apply prefix_cons in H; destruct H as (? & -> & H)).
  simpl.
  match goal with |- context [Js.split " " ?r] =>
    destruct (Js.split " " r) as [|tok rest] eqn:E;
      [exfalso; exact (split_nonempty _ _ E)|] end.
  simpl. now exists rest.
Qed.

Lemma not_bearer_unauthorized (env : Env) (req : Request) :
  is_bearer (authorization req) = false ->
  authMiddleware env req = [unauthorized_no_token].
Proof.
  unfold authMiddleware, is_bearer.
  destruct (authorization req) as [h|]; [|reflexivity].
  now intros ->.
Qed.

Lemma bearer_unfold (env : Env) (req : Request) (h : string) :
  authorization req = Some h -> is_bearer (Some h) = true ->
  authMiddleware env req =
    match verifyIdToken env (token_of h) with
    | Rejected err => on_error err
    | Resolved decodedToken =>
        SetReqUser decodedToken ::
        match getUserDoc env (uid decodedToken) with
        | Rejected err => on_error err
        | Resolved (Some userData) =>
            if Js.truthy (disabled userData) then [forbidden userData]
            else call_next env
        | Resolved None => call_next env
        end
    end.
Proof.
  unfold authMiddleware, is_bearer. now intros -> ->.
Qed.

(** C1. Access gate: a missing or non-Bearer [Authorization] header is
    answered 401; a token the issuer rejects, for whatever reason, is
    answered 401; a verified token whose user record exists with
    [disabled = true] is answered 403 with the record's [disabledReason],
    or "Terms verification pending" when the record states none, and the
    downstream handler is not entered; a verified token with no user
    record, or with a record whose [disabled] is falsy, enters the
    downstream handler. *)
Theorem access_gate (env : Env) (req : Request) :
  (is_bearer (authorization req) = false ->
     authMiddleware env req =
       [Respond 401 {| message := "Unauthorized: No token provided"; reason := None |}])
  /\ (forall h err,
        authorization req = Some h -> is_bearer (Some h) = true ->
        verifyIdToken env (token_of h) = Rejected err ->
        authMiddleware env req =
          [ConsoleError err;
           Respond 401 {| message := "Unauthorized: Invalid token"; reason := None |}])
  /\ (forall h d u,
        authorization req = Some h -> is_bearer (Some h) = true ->
        verifyIdToken env (token_of h) = Resolved d ->
        getUserDoc env (uid d) = Resolved (Some u) ->
        disabled u = Js.Bool true ->
        authMiddleware env req =
          [SetReqUser d;
           Respond 403
             {| message := "Account suspended due to security violations.";
                reason := Some (if Js.truthy (disabledReason u) then disabledReason u
                                else Js.Str "Terms verification pending") |}]
        /\ downstream_ran (authMiddleware env req) = false)
  /\ (forall h d,
        authorization req = Some h -> is_bearer (Some h) = true ->
        verifyIdToken env (token_of h) = Resolved d ->
        (getUserDoc env (uid d) = Resolved None
         \/ exists u, getUserDoc env (uid d) = Resolved (Some u)
                      /\ Js.truthy (disabled u) = false) ->
        (exists after, authMiddleware env req = SetReqUser d :: CallNext :: after)
        /\ downstream_ran (authMiddleware env req) = true).
Proof.
  split; [exact (not_bearer_unauthorized env req)|].
  split; [|split].
  - intros h err Hh Hb Hv. rewrite (bearer_unfold env req h Hh Hb), Hv. reflexivity.
  - intros h d u Hh Hb Hv Hu Hd.
    rewrite (bearer_unfold env req h Hh Hb), Hv, Hu, Hd. simpl. split; reflexivity.
  - intros h d Hh Hb Hv Hu.
    rewrite (bearer_unfold env req h Hh Hb), Hv.
    destruct Hu as [Hu | (u & Hu & Hd)]; rewrite Hu; [|rewrite Hd];
      (split; [eexists; reflexivity | reflexivity]).
Qed.

(** The cases at concrete requests: no header, a Basic header, a Bearer
    header with a token the issuer rejects, the disabled subject, and a
    subject without a record. *)
Lemma access_gate_witness :
  authMiddleware Scenarios.gate_env {| authorization := None |} =
    [Respond 401 {| message := "Unauthorized: No token provided"; reason := None |}]
  /\ authMiddleware Scenarios.gate_env (Scenarios.request_with "Basic dXNlcjpwYXNz") =
    [Respond 401 {| message := "Unauthorized: No token provided"; reason := None |}]
  /\ authMiddleware Scenarios.gate_env (Scenarios.request_with "Bearer forged") =
    [ConsoleError "auth/argument-error";
     Respond 401 {| message := "Unauthorized: Invalid token"; reason := None |}]
  /\ (authMiddleware Scenarios.gate_env (Scenarios.request_with "Bearer good") =
        [SetReqUser {| uid := "alice" |};
         Respond 403
           {| message := "Account suspended due to security violations.";
              reason := Some (Js.Str "Terms verification pending") |}]
      /\ downstream_ran
           (authMiddleware Scenarios.gate_env (Scenarios.request_with "Bearer good")) = false)
  /\ ((exists after,
         authMiddleware Scenarios.gate_env (Scenarios.request_with "Bearer fresh") =
           SetReqUser {| uid := "bob" |} :: CallNext :: after)
      /\ downstream_ran
           (authMiddleware Scenarios.gate_env (Scenarios.request_with "Bearer fresh")) = true).
Proof.
  split; [apply (proj1 (access_gate Scenarios.gate_env {| authorization := None |}));
          reflexivity|].
  split; [apply (proj1 (access_gate Scenarios.gate_env
                          (Scenarios.request_with "Basic dXNlcjpwYXNz"))); reflexivity|].
  split; [apply (proj1 (proj2 (access_gate Scenarios.gate_env
                                 (Scenarios.request_with "Bearer forged")))
                   "Bearer forged" "auth/argument-error"); reflexivity|].
  split.
  - apply (proj1 (proj2 (proj2 (access_gate Scenarios.gate_env
                                  (Scenarios.request_with "Bearer good"))))
             "Bearer good" {| uid := "alice" |}
             {| disabled := Js.Bool true; disabledReason := Js.Undefined |});
      reflexivity.
  - apply (proj2 (proj2 (proj2 (access_gate Scenarios.gate_env
                                  (Scenarios.request_with "Bearer fresh"))))
             "Bearer fresh" {| uid := "bob" |}); try reflexivity.
    left; reflexivity.
Defined.

End AccessGateFacts.

(** ** Properties of the keyboard rule table *)

Section ClassifierFacts.

Import SecurityLayers Statements.

Lemma lower_single (k : string) (c : ascii) :
  Js.toLowerCase k = String c "" ->
  exists d, k = String d "" /\ Js.lower_ascii d = c.
Proof.
  destruct k as [|d [|d' r]]; simpl; try discriminate.
  intros H. injection H as H. now exists d.
Qed.

Lemma lower_ascii_inv (c d : ascii) :
  In c ["p"; "s"; "c"; "a"; "u"; "i"; "j"]%char ->
  Js.lower_ascii d = c -> d = c \/ d = Js.upper_of c.
Proof.
  intros Hc H.
  repeat (destruct Hc as [<-|Hc]; [revert H|]); try contradiction;
    destruct d as [[] [] [] [] [] [] [] []]; vm_compute; intros H;
    solve [discriminate H | now left | now right].
Qed.

(** A key lower-cases to a table letter exactly when it is that letter in
    one of its two cases. *)
Lemma lower_letter (e : KeyEvent) (c : ascii) :
  In c ["p"; "s"; "c"; "a"; "u"; "i"; "j"]%char ->
  Js.toLowerCase (key e) = String c "" <->
  letter e (String c "") (String (Js.upper_of c) "").
Proof.
  intros Hc. split.
  - intros H. apply lower_single in H. destruct H as (d & Hk & Hd).
    destruct (lower_ascii_inv c d Hc Hd) as [-> | ->]; [left | right]; exact Hk.
  - intros [H | H]; rewrite H;
      repeat (destruct Hc as [<-|Hc]; [reflexivity|]); contradiction.
Qed.

Lemma F12_lower (e : KeyEvent) : key e = "F12" -> Js.toLowerCase (key e) = "f12".
Proof. now intros ->. Qed.

Ltac letter_facts e :=
  pose proof (lower_letter e "p" ltac:(simpl; tauto));
  pose proof (lower_letter e "s" ltac:(simpl; tauto));
  pose proof (lower_letter e "c" ltac:(simpl; tauto));
  pose proof (lower_letter e "a" ltac:(simpl; tauto));
  pose proof (lower_letter e "u" ltac:(simpl; tauto));
  pose proof (lower_letter e "i" ltac:(simpl; tauto));
  pose proof (lower_letter e "j" ltac:(simpl; tauto));
  pose proof (F12_lower e).

Ltac split_key_tests :=
  repeat match goal with
         | |- context [String.eqb ?x ?y] =>
             destruct (String.eqb_spec x y); [try subst x|]; simpl
         end.

Ltac letter_back :=
  match goal with
  | L : letter ?e ?l ?u, H : _ <-> letter ?e ?l ?u |- _ =>
      apply (proj2 H) in L; congruence
  | L : key ?e = "F12", H : key ?e = "F12" -> _ |- _ =>
      specialize (H L); congruence
  end.

Ltac letter_forth :=
  match goal with
  | H : ?lk = ?lk <-> letter ?e ?l ?u |- letter ?e ?l ?u => apply (proj1 H); reflexivity
  end.

(** The decision of the handler, rule by rule. *)
Lemma classify_blocks (e : KeyEvent) (a : string) :
  classify e = Block a <-> blocks e a.
Proof.
  letter_facts e. simpl in *.
  unfold blocks, classify, first_match, blockedCombinations, combo_matches. simpl.
  remember (Js.toLowerCase (key e)) as lk eqn:Elk. clear Elk.
  assert (Hcm : ctrl_or_meta e <-> ctrlKey e || metaKey e = true)
    by (unfold ctrl_or_meta; rewrite orb_true_iff; tauto).
  destruct (ctrlKey e || metaKey e) eqn:Ec; simpl;
    destruct (shiftKey e) eqn:Es; simpl; split_key_tests;
    (split;
     [ intros Hb; try discriminate Hb; injection Hb as <-;
       first [ solve [ right; split; [assumption | reflexivity] ]
             | left; constructor; solve [ now apply Hcm | assumption | letter_forth ] ]
     | intros [Hl | [HF ->]]; [inversion Hl; subst|]; try reflexivity; exfalso;
       solve [ congruence | letter_back
             | match goal with Hc : ctrl_or_meta e |- _ =>
                 apply Hcm in Hc; discriminate Hc end ] ]).
Qed.

(** Apart from [F12] with shift held, the handler blocks what is listed. *)
Lemma blocks_listed (e : KeyEvent) (a : string) :
  blocks e a <-> listed e a \/ (key e = "F12" /\ shiftKey e = true /\ a = "devtools").
Proof.
  unfold blocks. split.
  - intros [H | [HF ->]]; [now left|].
    destruct (shiftKey e) eqn:Es; [now right | left; now apply listed_F12].
  - intros [H | (HF & _ & ->)]; [now left | now right].
Qed.

Example classify_ctrl_p :
  classify {| key := "p"; ctrlKey := true; metaKey := false; shiftKey := false |}
  = Block "print".
Proof. reflexivity. Qed.

Example classify_meta_shift_C :
  classify {| key := "C"; ctrlKey := false; metaKey := true; shiftKey := true |}
  = Block "devtools".
Proof. reflexivity. Qed.

Example classify_ctrl_shift_p :
  classify {| key := "P"; ctrlKey := true; metaKey := false; shiftKey := true |}
  = Allow.
Proof. reflexivity. Qed.

(** [F12] is tested on the key value alone, after the table: no modifier
    is required and none is excluded. *)
Example classify_shift_F12 :
  classify {| key := "F12"; ctrlKey := false; metaKey := false; shiftKey := true |}
  = Block "devtools".
Proof. reflexivity. Qed.

Example classify_printscreen :
  classify {| key := "PrintScreen"; ctrlKey := false; metaKey := false; shiftKey := false |}
  = Allow.
Proof. reflexivity. Qed.

(** [classify] is the decision of the handler: on [Block] the handler logs
    KEYBOARD_BLOCKED with that action, on [Allow] it logs no such event. *)
Lemma keydown_logs_verdict (e : KeyEvent) (w : World) :
  match classify e with
  | Block a =>
      sink (handleKeyDown e w) = (sink w ++ [blocked_event a e w])%list
      /\ prevented (handleKeyDown e w) = S (prevented w)
  | Allow =>
      forall ev, In ev (sink (handleKeyDown e w)) ->
                 In ev (sink w) \/ type ev = PRINTSCREEN_BLOCKED
  end.
Proof.
  unfold classify, handleKeyDown, blocked_event.
  destruct (first_match e) as [combo|]; [now split|].
  destruct (String.eqb_spec (key e) "F12") as [-> | _]; [now split|].
  destruct (key e =? "PrintScreen").
  - simpl. intros ev Hev. apply in_app_or in Hev. destruct Hev as [Hev | [<- | []]].
    + left. revert Hev. unfold overwrite_clipboard, writeText, hideContentInstantly.
      simpl. destruct (content w); simpl; destruct (clipboardApi w); simpl; auto.
    + now right.
  - destruct ((key e =? "Meta") || (key e =? "OS")); intros ev Hev; left; [|exact Hev].
    revert Hev. unfold hideContentInstantly. now destruct (content w).
Qed.

(** C2. Event classifier, as the handler decides.  A keydown descriptor is
    blocked with action [a] exactly when it matches one of the listed
    combinations (ctrl or meta with P, S, C, A, U and shift absent; ctrl or
    meta with shift and I, J, C, S; F12 with shift absent) or is the key
    F12 under any other modifier state: F12 is tested on the key value
    alone, so shift does not exempt it.  For a blocked descriptor the
    handler suppresses the default once and reports one KEYBOARD_BLOCKED
    event with that action and the key; for every other descriptor the
    decision is [Allow] and the handler reports no KEYBOARD_BLOCKED
    event. *)
Theorem event_classifier (e : KeyEvent) (w : World) :
  (forall a, classify e = Block a <->
             listed e a \/ (key e = "F12" /\ shiftKey e = true /\ a = "devtools"))
  /\ (classify e = Allow <->
      (forall a, ~ listed e a) /\ ~ (key e = "F12" /\ shiftKey e = true))
  /\ (forall a, listed e a \/ (key e = "F12" /\ shiftKey e = true /\ a = "devtools") ->
        sink (handleKeyDown e w) = (sink w ++ [blocked_event a e w])%list
        /\ prevented (handleKeyDown e w) = S (prevented w))
  /\ ((forall a, ~ listed e a) -> ~ (key e = "F12" /\ shiftKey e = true) ->
      forall ev, In ev (sink (handleKeyDown e w)) ->
                 In ev (sink w) \/ type ev = PRINTSCREEN_BLOCKED).
Proof.
  assert (Hb : forall a, classify e = Block a <->
                 listed e a \/ (key e = "F12" /\ shiftKey e = true /\ a = "devtools")).
  { intros a. rewrite classify_blocks. apply blocks_listed. }
  assert (Ha : classify e = Allow <->
                 (forall a, ~ listed e a) /\ ~ (key e = "F12" /\ shiftKey e = true)).
  { split.
    - intros H. split.
      + intros a Hl. assert (Hc : classify e = Block a) by (apply Hb; now left).
        congruence.
      + intros [HF Hs].
        assert (Hc : classify e = Block "devtools") by (apply Hb; now right).
        congruence.
    - intros [Hl HF]. destruct (classify e) as [|a] eqn:E; [reflexivity|].
      destruct (proj1 (Hb a) eq_refl) as [H | (H1 & H2 & _)];
        [now apply Hl in H | exfalso; now apply HF]. }
  pose proof (keydown_logs_verdict e w) as Hk.
  split; [exact Hb|]. split; [exact Ha|]. split.
  - intros a H. apply Hb in H. now rewrite H in Hk.
  - intros Hl HF. assert (H : classify e = Allow) by (apply Ha; now split).
    now rewrite H in Hk.
Qed.

(** Ctrl+A on the mounted viewer: the rule "select_all" is listed, the
    default is suppressed and the event is reported. *)
Lemma event_classifier_witness :
  sink (handleKeyDown Scenarios.select_all_press Scenarios.viewer)
  = (sink Scenarios.viewer
     ++ [blocked_event "select_all" Scenarios.select_all_press Scenarios.viewer])%list
  /\ prevented (handleKeyDown Scenarios.select_all_press Scenarios.viewer)
     = S (prevented Scenarios.viewer).
Proof.
  destruct (event_classifier Scenarios.select_all_press Scenarios.viewer)
    as (_ & _ & H & _).
  apply H. left. apply listed_select_all; [left | | left]; reflexivity.
Defined.

(** Shift+F12 matches none of the listed combinations (bare F12 has shift
    absent), and yet the handler blocks it as "devtools": it is not true
    that every descriptor outside the list is allowed. *)
Lemma shift_F12_is_blocked :
  (forall a, ~ listed Scenarios.shift_F12 a)
  /\ classify Scenarios.shift_F12 = Block "devtools"
  /\ sink (handleKeyDown Scenarios.shift_F12 Scenarios.viewer)
     = [blocked_event "devtools" Scenarios.shift_F12 Scenarios.viewer]
  /\ prevented (handleKeyDown Scenarios.shift_F12 Scenarios.viewer) = 1%nat
  /\ ~ (forall e, (forall a, ~ listed e a) -> classify e = Allow).
Proof.
  assert (Hl : forall a, ~ listed Scenarios.shift_F12 a).
  { intros a H.
    inversion H;
      repeat match goal with
             | L : letter _ _ _ |- _ => destruct L as [L | L]; discriminate L
             | L : key _ = _ |- _ => discriminate L
             | L : shiftKey _ = _ |- _ => discriminate L
             end. }
  split; [exact Hl|]. repeat split.
  intros H. specialize (H Scenarios.shift_F12 Hl). discriminate H.
Qed.

End ClassifierFacts.

(** ** The aggregate security flag *)

Section MonitorInvariant.

Import SecurityLayers Statements.













Lemma reachable_run (inputs : list Input) (w : World) :
  reachable w -> reachable (run inputs w).
Proof.
  revert w. induction inputs as [|i inputs IH]; intros w Hw; simpl; [exact Hw|].
  apply IH. now apply reachable_input.
Qed.




End MonitorInvariant.

(** ** DevTools detection *)

Section DevToolsFacts.

Import SecurityLayers Statements.

Lemma same_report_timer (cb : TimerCallback) (w0 w : World) :
  same_report w0 w -> same_report w0 (run_timer cb w).
Proof.
  destruct cb; simpl; try exact (fun H => H).
  - unfold showContent. now destruct (content w).
  - now destruct (content w).
Qed.

Lemma same_report_advance (dt : N) (w : World) : same_report w (advance dt w).
Proof.
  apply (advance_invariant (same_report w)).
  - intros m rest x Hx. unfold fire. now apply same_report_timer.
  - intros t x Hx. exact Hx.
  - repeat split.
Qed.

Lemma now_checkDevTools (s : Sample) (w : World) : now (checkDevTools s w) = now w.
Proof.
  unfold checkDevTools.
  destruct (isOpen s && negb (devToolsOpen w)); [reflexivity|].
  now destruct (negb (isOpen s) && devToolsOpen w).
Qed.

(** Once suspected, a poll that still finds a signal changes nothing. *)
Lemma checkDevTools_held (s : Sample) (w : World) :
  isOpen s = true -> devToolsOpen w = true -> checkDevTools s w = w.
Proof. unfold checkDevTools. now intros -> ->. Qed.

Lemma polling_cons (s : Sample) (samples : list Sample) (w : World) :
  polling (s :: samples) w = polling samples (advance 1000 (checkDevTools s w)).
Proof. unfold polling. cbn [fold_left]. reflexivity. Qed.

Lemma polling_held (samples : list Sample) (w : World) :
  Forall (fun s => isOpen s = true) samples -> devToolsOpen w = true ->
  same_report w (polling samples w).
Proof.
  intros Hall. revert w. induction Hall as [|s samples Hs Hall IH]; intros w Hw.
  - repeat split.
  - rewrite polling_cons, (checkDevTools_held s w Hs Hw).
    destruct (same_report_advance 1000 w) as (H1 & H2 & H3).
    assert (Hw' : devToolsOpen (advance 1000 w) = true) by congruence.
    destruct (IH (advance 1000 w) Hw') as (H4 & H5 & H6).
    repeat split; congruence.
Qed.

Lemma Qgtb_lt (a b : Q) : Qgtb a b = true <-> b < a.
Proof.
  unfold Qgtb. rewrite negb_true_iff. split.
  - intros H. apply Qnot_le_lt. intros Hle.
    apply Qle_bool_iff in Hle. congruence.
  - intros H. destruct (Qle_bool a b) eqn:E; [|reflexivity].
    apply Qle_bool_iff in E. exfalso. exact (Qlt_not_le _ _ H E).
Qed.

(** C6. The DevTools verdict is edge-triggered.  The three signals are the
    geometry difference above 160 px on either axis, the console timing
    above 100 ms and the debugger pause above 100 ms, combined by OR.  When
    the hook does not yet suspect DevTools and the verdict is true at every
    one of the polls [s :: rest], taken 1000 ms apart, exactly one
    DEVTOOLS_DETECTED event is emitted, by the first poll, and it names the
    first true signal of that poll in the order size, console, debugger.
    A poll that finds no signal while DevTools is suspected only resets
    the flag: no event, no trigger count. *)
Theorem devtools_edge_triggered (s : Sample) (rest : list Sample) (w : World) :
  devToolsOpen w = false ->
  isOpen s = true ->
  Forall (fun s' => isOpen s' = true) rest ->
  (* the signals *)
  (isOpen s = devToolsOpen1 s || devToolsOpen2 s || devToolsOpen3 s
   /\ (devToolsOpen1 s = true <->
         (outerWidth s - innerWidth s > 160 \/ outerHeight s - innerHeight s > 160)%Z)
   /\ (devToolsOpen2 s = true <-> 100 < duration s)
   /\ (devToolsOpen3 s = true <-> 100 < debugDuration s))
  (* one event, at the transition *)
  /\ sink (checkDevTools s w) =
       (sink w ++ [{| type := DEVTOOLS_DETECTED; timestamp := now w;
                      details := [("method", Js.Str (detection_method s))] |}])%list
  /\ sink (polling (s :: rest) w) = sink (checkDevTools s w)
  /\ triggerCount (polling (s :: rest) w) = S (triggerCount w)
  /\ devToolsOpen (polling (s :: rest) w) = true
  (* the method named *)
  /\ (devToolsOpen1 s = true -> detection_method s = "size")
  /\ (devToolsOpen1 s = false -> devToolsOpen2 s = true -> detection_method s = "console")
  /\ (devToolsOpen1 s = false -> devToolsOpen2 s = false -> detection_method s = "debugger")
  (* the way back is silent *)
  /\ (forall s0 w0, isOpen s0 = false -> devToolsOpen w0 = true ->
        checkDevTools s0 w0 = setDevToolsOpen false w0
        /\ sink (checkDevTools s0 w0) = sink w0
        /\ triggerCount (checkDevTools s0 w0) = triggerCount w0
        /\ devToolsOpen (checkDevTools s0 w0) = false).
Proof.
  intros Hw Hs Hrest.
  assert (Hc : checkDevTools s w =
               logEvent DEVTOOLS_DETECTED [("method", Js.Str (detection_method s))]
                 (setDevToolsOpen true w))
    by (unfold checkDevTools; now rewrite Hs, Hw).
  assert (Hp : same_report (checkDevTools s w) (polling (s :: rest) w)).
  { rewrite polling_cons.
    destruct (same_report_advance 1000 (checkDevTools s w)) as (H1 & H2 & H3).
    assert (Ho : devToolsOpen (advance 1000 (checkDevTools s w)) = true)
      by (rewrite H3, Hc; reflexivity).
    destruct (polling_held rest (advance 1000 (checkDevTools s w)) Hrest Ho)
      as (H4 & H5 & H6).
    repeat split; congruence. }
  destruct Hp as (Hp1 & Hp2 & Hp3).
  split; [|split; [|split; [|split; [|split; [|split; [|split; [|split]]]]]]].
  - split; [reflexivity|]. split; [|split].
    + unfold devToolsOpen1. rewrite orb_true_iff, !Z.gtb_gt. reflexivity.
    + apply Qgtb_lt.
    + apply Qgtb_lt.
  - rewrite Hc. reflexivity.
  - exact Hp1.
  - rewrite Hp2, Hc. reflexivity.
  - rewrite Hp3, Hc. reflexivity.
  - unfold detection_method. now intros ->.
  - unfold detection_method. now intros -> ->.
  - unfold detection_method. now intros -> ->.
  - intros s0 w0 Hs0 Hw0. unfold checkDevTools. rewrite Hs0, Hw0. simpl.
    repeat split.
Qed.

(** Four polls with a signal throughout, first the docked inspector and
    then the slow console: one event, naming the window size. *)
Lemma devtools_edge_triggered_witness :
  sink (polling [Scenarios.docked; Scenarios.slow_console; Scenarios.docked;
                 Scenarios.slow_console] Scenarios.viewer) =
    [{| type := DEVTOOLS_DETECTED; timestamp := 0;
        details := [("method", Js.Str "size")] |}]
  /\ triggerCount (polling [Scenarios.docked; Scenarios.slow_console; Scenarios.docked;
                            Scenarios.slow_console] Scenarios.viewer) = 1%nat.
Proof.
  assert (Hrest : Forall (fun s' => isOpen s' = true)
                    [Scenarios.slow_console; Scenarios.docked; Scenarios.slow_console])
    by (repeat constructor).
  destruct (devtools_edge_triggered Scenarios.docked
              [Scenarios.slow_console; Scenarios.docked; Scenarios.slow_console]
              Scenarios.viewer eq_refl eq_refl Hrest)
    as (_ & H1 & H2 & H3 & _).
  split; [rewrite H2; exact H1 | exact H3].
Defined.

End DevToolsFacts.

(** ** The violation banner *)

Section BannerFacts.

Import SecurityLayers Statements.

Lemma clear_due_none (target : N) (l : list (N * TimerCallback)) :
  Forall (fun x => (target < fst x)%N) l -> existsb (clear_due target) l = false.
Proof.
  induction 1 as [|x l Hx Hl IH]; simpl; [reflexivity|].
  rewrite IH. unfold clear_due. apply N.leb_gt in Hx. rewrite Hx.
  now destruct (is_clear x).
Qed.

(** After the loop the banner is clear if a clear was due, and untouched
    otherwise. *)
Lemma banner_run_until (target : N) (w : World) :
  securityViolation (run_until target w) =
    if existsb (clear_due target) (timers w) then Js.Null else securityViolation w.
Proof.
  apply (run_until_ind
           (fun w r => securityViolation r =
                         if existsb (clear_due target) (timers w) then Js.Null
                         else securityViolation w)).
  - intros w' E. apply next_due_none in E. now rewrite (clear_due_none _ _ E).
  - intros w' m rest r E IH. apply next_due_some in E. destruct E as [E Hm].
    rewrite (extract_min_existsb _ _ _ _ E). rewrite IH. clear IH.
    assert (Hcd : clear_due target m = is_clear m).
    { unfold clear_due. apply N.leb_le in Hm. rewrite Hm. apply andb_true_r. }
    rewrite Hcd. unfold is_clear, fire. destruct m as [t cb]. simpl. destruct cb; simpl.
    + now destruct (existsb _ rest).
    + unfold showContent. simpl. destruct (content w'); simpl; [|reflexivity].
      rewrite existsb_app. simpl. now rewrite !orb_false_r.
    + destruct (content w'); reflexivity.
Qed.

Lemma filter_after_all (target : N) (l : list (N * TimerCallback)) :
  Forall (fun x => (target < fst x)%N) l ->
  filter (clear_after target) l = filter is_clear l.
Proof.
  induction 1 as [|x l Hx Hl IH]; simpl; [reflexivity|].
  rewrite IH. unfold clear_after. apply N.ltb_lt in Hx. now rewrite Hx, andb_true_r.
Qed.

(** The clears that stay pending are those that were not yet due, in their
    order: none is cancelled and none is added by a callback. *)
Lemma clears_run_until (target : N) (w : World) :
  filter is_clear (timers (run_until target w)) =
  filter (clear_after target) (timers w).
Proof.
  rewrite <- (filter_after_all target) by apply run_until_done.
  apply (run_until_ind
           (fun w r => filter (clear_after target) (timers r) =
                       filter (clear_after target) (timers w))).
  - reflexivity.
  - intros w' m rest r E IH. apply next_due_some in E. destruct E as [E Hm].
    rewrite IH. clear IH.
    assert (Hmf : clear_after target m = false).
    { unfold clear_after. apply N.ltb_ge in Hm. rewrite Hm. apply andb_false_r. }
    rewrite <- (extract_min_filter _ _ _ _ E Hmf).
    unfold fire.
    destruct (timers_run_timer (snd m)
                (set_timers rest (set_now (N.max (now w') (fst m)) w')))
      as [-> | [_ ->]]; simpl; [reflexivity|].
    rewrite filter_app. simpl. apply app_nil_r.
Qed.

Lemma existsb_clear_due (target : N) (l : list (N * TimerCallback)) :
  existsb (clear_due target) l =
  existsb (fun x => (fst x <=? target)%N) (filter is_clear l).
Proof.
  induction l as [|x l IH]; simpl; [reflexivity|].
  unfold clear_due at 1. destruct (is_clear x); simpl; now rewrite IH.
Qed.

Lemma filter_clear_after_idle (target : N) (w : World) :
  idle_banner w -> filter (clear_after target) (timers w) = [].
Proof.
  unfold idle_banner. intros H.
  induction (timers w) as [|x l IH]; simpl in *; [reflexivity|].
  unfold clear_after at 1. destruct (is_clear x); simpl; [discriminate|]. now apply IH.
Qed.

(** The banner [e] ms after a state, read off the pending clears. *)
Lemma banner_advance (e : N) (w : World) :
  securityViolation (advance e w) =
    if existsb (fun x => (fst x <=? now w + e)%N) (filter is_clear (timers w))
    then Js.Null else securityViolation w.
Proof. unfold advance. now rewrite banner_run_until, existsb_clear_due. Qed.

Lemma clears_showViolation (message : string) (w : World) :
  filter is_clear (timers (showViolation message w)) =
  (filter is_clear (timers w) ++ [((now w + 3000)%N, ClearViolation)])%list.
Proof. simpl. now rewrite filter_app. Qed.

(** C4 (as the code has it). A violation raised while no clear is pending
    shows its message for exactly 3000 ms.  A second violation raised
    [d] < 3000 ms after the first replaces the message at once (last write
    wins, one banner at a time), but no clock is restarted: both clears
    stay pending, the first one removes the newest message 3000 - [d] ms
    after it was raised, and the banner is clear from then on, also 3000 ms
    after the second violation. *)
Theorem banner_timing (w : World) (m1 m2 : string) (d : N) :
  idle_banner w -> (d < 3000)%N ->
  let w1 := showViolation m1 w in
  let w2 := showViolation m2 (advance d w1) in
  (forall e, (e < 3000)%N -> securityViolation (advance e w1) = Js.Str m1)
  /\ (forall e, (3000 <= e)%N -> securityViolation (advance e w1) = Js.Null)
  /\ securityViolation w2 = Js.Str m2
  /\ filter is_clear (timers w2) =
       [((now w + 3000)%N, ClearViolation); ((now w + d + 3000)%N, ClearViolation)]
  /\ (forall e, (e < 3000 - d)%N -> securityViolation (advance e w2) = Js.Str m2)
  /\ (forall e, (3000 - d <= e)%N -> securityViolation (advance e w2) = Js.Null).
Proof.
  intros Hidle Hd w1 w2.
  assert (H1 : filter is_clear (timers w1) = [((now w + 3000)%N, ClearViolation)]).
  { unfold w1. rewrite clears_showViolation. unfold idle_banner in Hidle.
    now rewrite Hidle. }
  assert (Hn1 : now w1 = now w) by reflexivity.
  assert (H2 : filter is_clear (timers w2) =
               [((now w + 3000)%N, ClearViolation); ((now w + d + 3000)%N, ClearViolation)]).
  { unfold w2. rewrite clears_showViolation. unfold advance at 1.
    rewrite clears_run_until, now_advance, Hn1.
    unfold w1. simpl timers. rewrite filter_app, filter_clear_after_idle by exact Hidle.
    simpl. unfold clear_after. simpl.
    assert (Hlt : (now w + d <? now w + 3000)%N = true) by (apply N.ltb_lt; lia).
    rewrite Hlt. reflexivity. }
  assert (Hn2 : now w2 = (now w + d)%N).
  { unfold w2. change (now (showViolation m2 ?x)) with (now x).
    now rewrite now_advance, Hn1. }
  repeat split.
  - intros e He. rewrite banner_advance, H1, Hn1. simpl.
    assert (Hf : (now w + 3000 <=? now w + e)%N = false) by (apply N.leb_gt; lia).
    now rewrite Hf.
  - intros e He. rewrite banner_advance, H1, Hn1. simpl.
    assert (Ht : (now w + 3000 <=? now w + e)%N = true) by (apply N.leb_le; lia).
    now rewrite Ht.
  - exact H2.
  - intros e He. rewrite banner_advance, H2, Hn2. simpl.
    assert (Hf1 : (now w + 3000 <=? now w + d + e)%N = false) by (apply N.leb_gt; lia).
    assert (Hf2 : (now w + d + 3000 <=? now w + d + e)%N = false) by (apply N.leb_gt; lia).
    now rewrite Hf1, Hf2.
  - intros e He. rewrite banner_advance, H2, Hn2. simpl.
    assert (Ht : (now w + 3000 <=? now w + d + e)%N = true) by (apply N.leb_le; lia).
    now rewrite Ht.
Qed.

(** A right-click on the mounted viewer, followed one second later by a
    second violation. *)
Lemma banner_timing_witness :
  idle_banner Scenarios.viewer /\ (1000 < 3000)%N
  /\ let w1 := showViolation "Right-click is disabled" Scenarios.viewer in
     let w2 := showViolation "Copying is disabled" (advance 1000 w1) in
     (forall e, (e < 3000)%N ->
                securityViolation (advance e w1) = Js.Str "Right-click is disabled")
     /\ (forall e, (3000 <= e)%N -> securityViolation (advance e w1) = Js.Null)
     /\ securityViolation w2 = Js.Str "Copying is disabled"
     /\ filter is_clear (timers w2) =
          [((now Scenarios.viewer + 3000)%N, ClearViolation);
           ((now Scenarios.viewer + 1000 + 3000)%N, ClearViolation)]
     /\ (forall e, (e < 3000 - 1000)%N ->
                   securityViolation (advance e w2) = Js.Str "Copying is disabled")
     /\ (forall e, (3000 - 1000 <= e)%N -> securityViolation (advance e w2) = Js.Null).
Proof.
  split; [reflexivity|]. split; [reflexivity|].
  apply (banner_timing Scenarios.viewer "Right-click is disabled" "Copying is disabled" 1000);
    reflexivity.
Defined.

(** The clock is not restarted: a right-click at 0 ms and a copy attempt
    at 1000 ms.  The copy message is on show at 1000 ms, and 2000 ms later,
    a second before its 3000 ms are over, the banner is clear. *)
Lemma banner_clock_not_restarted :
  let w2 := run Scenarios.two_violations Scenarios.viewer in
  now w2 = 1000%N
  /\ securityViolation w2 = Js.Str "Copying is disabled"
  /\ securityViolation (advance 2000 w2) = Js.Null
  /\ ~ visible_full_window "Copying is disabled" w2.
Proof.
  split; [reflexivity|]. split; [reflexivity|]. split; [reflexivity|].
  intros H. specialize (H 2000%N eq_refl). discriminate H.
Qed.

End BannerFacts.

(** ** PrintScreen *)

Section PrintScreenFacts.

Import SecurityLayers Statements.

Lemma first_match_printscreen (e : KeyEvent) :
  key e = "PrintScreen" -> first_match e = None.
Proof.
  intros H. unfold first_match, blockedCombinations, combo_matches. rewrite H.
  simpl. now rewrite !andb_false_r.
Qed.

Lemma clipboard_attempt (w : World) :
  clipboard_attempted w (overwrite_clipboard w)
  /\ content (overwrite_clipboard w) = content w
  /\ sink (overwrite_clipboard w) = sink w
  /\ timers (overwrite_clipboard w) = timers w
  /\ now (overwrite_clipboard w) = now w.
Proof.
  unfold clipboard_attempted, overwrite_clipboard, writeText.
  destruct (clipboardApi w); repeat split.
Qed.

Lemma hide_frames (w : World) :
  content (hideContentInstantly w) = hidden_from w
  /\ uncaught (hideContentInstantly w) = uncaught w
  /\ clipboardApi (hideContentInstantly w) = clipboardApi w
  /\ clipboardText (hideContentInstantly w) = clipboardText w
  /\ sink (hideContentInstantly w) = sink w
  /\ timers (hideContentInstantly w) = timers w
  /\ now (hideContentInstantly w) = now w.
Proof.
  unfold hideContentInstantly, hidden_from.
  destruct (content w) eqn:E; repeat split; simpl; assumption.
Qed.

(** C5 (as the code has it). On PrintScreen keydown the keyboard layer
    hides the content at once, attempts the clipboard overwrite and
    swallows its failure, emits PRINTSCREEN_BLOCKED, raises "Screenshots
    are disabled" and schedules the delayed show 2000 ms later.  On
    PrintScreen keyup it hides the content, attempts the clipboard
    overwrite and schedules the delayed show 2000 ms later, and nothing
    else: no event is emitted and no violation is raised. *)
Theorem printscreen_handling (e : KeyEvent) (w : World) :
  key e = "PrintScreen" ->
  printscreen_response w (handleKeyDown e w)
  /\ (let w' := handleKeyUp e w in
      content w' = hidden_from w
      /\ clipboard_attempted w w'
      /\ timers w' = (timers w ++ [((now w + 2000)%N, CallShowContent)])%list
      /\ sink w' = sink w
      /\ triggerCount w' = triggerCount w
      /\ securityViolation w' = securityViolation w).
Proof.
  intros Hk.
  destruct (hide_frames w) as (Hc & Hu & Ha & Ht & Hs & Htm & Hn).
  split.
  - unfold handleKeyDown. rewrite (first_match_printscreen e Hk), Hk. simpl.
    destruct (clipboard_attempt (hideContentInstantly (preventDefault w)))
      as ((Cu & Ct) & Cc & Cs & Ctm & Cn).
    destruct (hide_frames (preventDefault w)) as (Hc' & Hu' & Ha' & Ht' & Hs' & Htm' & Hn').
    unfold printscreen_response, clipboard_attempted. simpl.
    rewrite Cc, Cu, Ct, Cs, Cn, Ctm, Hc', Hu', Ha', Ht', Hs', Hn'. simpl.
    repeat split. rewrite !in_app_iff. right. now left.
  - unfold handleKeyUp. rewrite Hk. simpl.
    destruct (clipboard_attempt (hideContentInstantly w))
      as ((Cu & Ct) & Cc & Cs & Ctm & Cn).
    unfold clipboard_attempted. simpl.
    rewrite Cc, Cu, Ct, Cs, Cn, Ctm, Hc, Hu, Ha, Ht, Hs, Htm, Hn.
    repeat split.
    + unfold overwrite_clipboard, writeText.
      destruct (clipboardApi (hideContentInstantly w)); simpl;
        unfold hideContentInstantly; destruct (content w); reflexivity.
    + unfold overwrite_clipboard, writeText.
      destruct (clipboardApi (hideContentInstantly w)); simpl;
        unfold hideContentInstantly; destruct (content w); reflexivity.
Qed.

(** A bare PrintScreen key, pressed and released on the mounted viewer. *)
Lemma printscreen_handling_witness :
  printscreen_response Scenarios.viewer
    (handleKeyDown (Scenarios.key_press "PrintScreen") Scenarios.viewer)
  /\ (let w' := handleKeyUp (Scenarios.key_press "PrintScreen") Scenarios.viewer in
      content w' = hidden_from Scenarios.viewer
      /\ clipboard_attempted Scenarios.viewer w'
      /\ timers w' = (timers Scenarios.viewer
                      ++ [((now Scenarios.viewer + 2000)%N, CallShowContent)])%list
      /\ sink w' = sink Scenarios.viewer
      /\ triggerCount w' = triggerCount Scenarios.viewer
      /\ securityViolation w' = securityViolation Scenarios.viewer).
Proof.
  apply (printscreen_handling (Scenarios.key_press "PrintScreen") Scenarios.viewer).
  reflexivity.
Defined.

(** Keyup is not keydown: releasing PrintScreen on the mounted viewer emits
    no event and raises no violation, so the five effects are not all
    there. *)
Lemma printscreen_keyup_silent :
  let w' := handleKeyUp (Scenarios.key_press "PrintScreen") Scenarios.viewer in
  sink w' = []
  /\ securityViolation w' = Js.Null
  /\ ~ printscreen_response Scenarios.viewer w'.
Proof.
  split; [reflexivity|]. split; [reflexivity|].
  intros (_ & _ & Hsink & _). discriminate Hsink.
Qed.

End PrintScreenFacts.

(** ** Delayed show on a surface that is gone *)

Section TeardownFacts.

Import SecurityLayers Statements.

Lemma extract_min_in (l : list (N * TimerCallback)) :
  forall m rest x, extract_min l = Some (m, rest) -> In x l -> x = m \/ In x rest.
Proof.
  induction l as [|entry l IH]; intros m rest x H Hx; simpl in H; [discriminate|].
  destruct (extract_min l) as [[m' rest']|] eqn:E.
  - destruct (fst entry <=? fst m')%N; injection H as <- <-.
    + destruct Hx as [<- | Hx]; [now left | now right].
    + destruct Hx as [<- | Hx]; [right; now left|].
      destruct (IH _ _ x eq_refl Hx) as [-> | Hr]; [now left | right; now right].
  - injection H as <- <-. apply extract_min_none in E. subst l.
    destruct Hx as [<- | []]. now left.
Qed.

Lemma timers_fire_keep (m : N * TimerCallback) (rest : list (N * TimerCallback))
    (w : World) (x : N * TimerCallback) :
  In x rest -> In x (timers (fire m rest w)).
Proof.
  intros Hx. unfold fire.
  destruct (timers_run_timer (snd m) (set_timers rest (set_now (N.max (now w) (fst m)) w)))
    as [-> | [_ ->]]; simpl; [exact Hx|].
  apply in_or_app. now left.
Qed.

(** A timeout that is not yet due stays pending. *)
Lemma pending_kept (target : N) (x : N * TimerCallback) (w : World) :
  (target < fst x)%N -> In x (timers w) -> In x (timers (run_until target w)).
Proof.
  intros Hx.
  apply (run_until_ind (fun w r => In x (timers w) -> In x (timers r))).
  - intros w' _ H. exact H.
  - intros w' m rest r E IH H. apply IH. apply next_due_some in E.
    destruct E as [E Hm]. apply timers_fire_keep.
    destruct (extract_min_in _ _ _ x E H) as [-> | Hr]; [lia | exact Hr].
Qed.

(** No callback brings a surface back, and what was thrown stays thrown. *)
Lemma fire_torn_down (m : N * TimerCallback) (rest : list (N * TimerCallback))
    (w : World) :
  content w = None ->
  content (fire m rest w) = None
  /\ (forall err, In err (uncaught w) -> In err (uncaught (fire m rest w)))
  /\ (snd m = RestoreStyle -> In "TypeError" (uncaught (fire m rest w))).
Proof.
  intros Hc. unfold fire. destruct (snd m); simpl; unfold showContent; simpl;
    rewrite ?Hc; simpl; repeat split; auto; try discriminate.
  - intros err H. apply in_or_app. now left.
  - intros _. apply in_or_app. right. now left.
Qed.

(** On a torn-down surface, a pending restore whose deadline passes
    throws. *)
Lemma pending_restore_throws (target : N) (w : World) :
  content w = None ->
  (exists t, In (t, RestoreStyle) (timers w) /\ (t <= target)%N) ->
  In "TypeError" (uncaught (run_until target w)).
Proof.
  intros Hc Hp.
  assert (H : In "TypeError" (uncaught w)
              \/ exists t, In (t, RestoreStyle) (timers w) /\ (t <= target)%N)
    by now right.
  clear Hp. revert Hc H.
  apply (run_until_ind
           (fun w r => content w = None ->
                       In "TypeError" (uncaught w)
                       \/ (exists t, In (t, RestoreStyle) (timers w) /\ (t <= target)%N) ->
                       In "TypeError" (uncaught r))).
  - intros w' E Hc [H | (t & Ht & Hle)]; [exact H|].
    apply next_due_none in E. rewrite Forall_forall in E.
    specialize (E _ Ht). simpl in E. lia.
  - intros w' m rest r E IH Hc H.
    destruct (fire_torn_down m rest w' Hc) as (Hc' & Hmono & Hthrow).
    apply IH; [exact Hc'|].
    destruct H as [H | (t & Ht & Hle)]; [left; now apply Hmono|].
    apply next_due_some in E. destruct E as [E _].
    destruct (extract_min_in _ _ _ _ E Ht) as [<- | Hr].
    + left. now apply Hthrow.
    + right. exists t. split; [now apply timers_fire_keep | exact Hle].
Qed.

(** The window is focused while the element is live, the element is torn
    down less than 100 ms later, and the restore comes due: it throws. *)
Lemma focus_teardown_throws (w : World) (d e : N) :
  content w <> None -> (d < 100)%N -> (100 <= d + e)%N ->
  In "TypeError"
     (uncaught (advance e (set_content None (advance d (handleFocus w))))).
Proof.
  intros Hc Hd He.
  assert (Hp : In ((now w + 100)%N, RestoreStyle) (timers (handleFocus w))).
  { unfold handleFocus, showContent. simpl. destruct (content w); [|contradiction].
    simpl. apply in_or_app. right. now left. }
  assert (Hn : now (handleFocus w) = now w).
  { unfold handleFocus, showContent. simpl. now destruct (content w). }
  unfold advance at 1. apply pending_restore_throws; [reflexivity|].
  exists (now w + 100)%N. split.
  - change (timers (set_content None ?x)) with (timers x).
    unfold advance. apply pending_kept; [simpl; lia | exact Hp].
  - change (now (set_content None ?x)) with (now x).
    rewrite now_advance, Hn. lia.
Qed.

(** C7 (the code falls short of it). [showContent] tests the content
    reference when it is called, not when its timeout fires: the callback
    writes [contentRef.current.style] unguarded.  When the protected
    element is torn down while a restore is pending, the callback throws a
    TypeError instead of doing nothing, on the focus path and on the
    PrintScreen path alike.  Only the outer [setTimeout(showContent, ...)]
    callback is a no-op on a surface that is already gone. *)
Theorem restore_after_teardown_throws :
  uncaught (run Scenarios.focus_then_teardown Scenarios.viewer) = ["TypeError"]
  /\ uncaught (run Scenarios.printscreen_then_teardown Scenarios.viewer) = ["TypeError"]
  /\ (forall w, run_timer RestoreStyle (set_content None w)
                = throw "TypeError" (set_content None w))
  /\ (forall w, run_timer CallShowContent (set_content None w) = set_content None w).
Proof. repeat split. Qed.

End TeardownFacts.

(** ** Attaching and detaching the layers *)

Section ListenerFacts.

Import SecurityLayers Statements.

Lemma existsb_map_false {A B : Type} (f : B -> bool) (g : A -> B) (l : list A) :
  (forall x, In x l -> f (g x) = false) -> existsb f (map g l) = false.
Proof.
  induction l as [|x l IH]; intros H; simpl; [reflexivity|].
  rewrite (H x (or_introl eq_refl)). apply IH. intros y Hy. apply H. now right.
Qed.

Lemma filter_map_all {A B : Type} (f : B -> bool) (g : A -> B) (l : list A) :
  (forall x, In x l -> f (g x) = true) -> filter f (map g l) = map g l.
Proof.
  induction l as [|x l IH]; intros H; simpl; [reflexivity|].
  rewrite (H x (or_introl eq_refl)). f_equal. apply IH. intros y Hy. apply H. now right.
Qed.

(** One more run of the keyboard effect leaves one more [keyup] listener
    behind. *)
Lemma keyboard_cycle (k : nat) (r : Registry) :
  listeners r = map keyup_listener (seq 0 k) ->
  listeners (disable KeyboardLayer k (enable KeyboardLayer k r))
    = map keyup_listener (seq 0 (S k))
  /\ intervals (disable KeyboardLayer k (enable KeyboardLayer k r)) = intervals r.
Proof.
  destruct r as [ls ivs]. cbn [listeners intervals]. intros ->.
  unfold enable, disable, attach, cleanup.
  assert (H1 : addEventListener Document "keydown" (HKeyDown, k) true
                 {| listeners := map keyup_listener (seq 0 k); intervals := ivs |}
               = {| listeners := map keyup_listener (seq 0 k)
                                 ++ [{| target := Document; etype := "keydown";
                                        callback := (HKeyDown, k); capture := true |}];
                    intervals := ivs |}).
  { unfold addEventListener. cbn [listeners intervals].
    now rewrite existsb_map_false by (intros x _; reflexivity). }
  rewrite H1. clear H1.
  assert (H2 : forall l,
             addEventListener Document "keyup" (HKeyUp, k) true
               {| listeners := map keyup_listener (seq 0 k) ++ [l]; intervals := ivs |}
             = (if listener_eqb (keyup_listener k) l
                then {| listeners := map keyup_listener (seq 0 k) ++ [l]; intervals := ivs |}
                else {| listeners := (map keyup_listener (seq 0 k) ++ [l])
                                     ++ [keyup_listener k];
                        intervals := ivs |})).
  { intros l. unfold addEventListener. cbn [listeners intervals].
    rewrite existsb_app, existsb_map_false.
    - cbn [existsb orb]. rewrite orb_false_r. reflexivity.
    - intros x Hx. apply in_seq in Hx. unfold listener_eqb, keyup_listener. cbn.
      assert (Hne : Nat.eqb k x = false) by (apply Nat.eqb_neq; lia).
      now rewrite Hne. }
  rewrite H2. clear H2.
  replace (listener_eqb (keyup_listener k) _) with false by reflexivity.
  unfold removeEventListener. cbn [listeners intervals]. split; [|reflexivity].
  rewrite !filter_app, filter_map_all by (intros x _; reflexivity).
  rewrite seq_S, map_app. cbn [filter map Nat.add].
  match goal with
  | |- context [listener_eqb ?kd ?kd] =>
      replace (listener_eqb kd kd) with true
        by (unfold listener_eqb; cbn; now rewrite Nat.eqb_refl);
      replace (listener_eqb kd (keyup_listener k)) with false by reflexivity
  end.
  cbn [negb]. now rewrite app_nil_r.
Qed.

Lemma keyboard_toggle (n k : nat) (r : Registry) :
  listeners r = map keyup_listener (seq 0 k) ->
  listeners (toggle KeyboardLayer k n r) = map keyup_listener (seq 0 (k + n)).
Proof.
  revert k r. induction n as [|n IH]; intros k r Hr; simpl.
  - now rewrite Nat.add_0_r.
  - rewrite (IH (S k)); [f_equal; f_equal; lia|]. now apply keyboard_cycle.
Qed.

(** The other layers remove what they registered. *)
Lemma other_layers_detach (layer : Layer) (k : nat) :
  layer <> KeyboardLayer ->
  disable layer k (enable layer k no_listeners) = no_listeners.
Proof.
  intros Hl. destruct layer; try contradiction;
    unfold disable, enable, cleanup, attach, addEventListener, removeEventListener,
           setInterval, clearInterval, listener_eqb, no_listeners;
    repeat (cbn; rewrite ?Nat.eqb_refl); reflexivity.
Qed.




(** C8 (the code falls short of it). The keyboard layer registers a
    [keydown] and a [keyup] listener and its cleanup removes the [keydown]
    listener only.  After one enable/disable the [keyup] listener is still
    registered; after [n] toggles there are [n] of them; and a PrintScreen
    keyup delivered to the disabled layer still hides the content. *)
Theorem keyboard_keyup_listener_leaks :
  listeners Scenarios.keyboard_toggled_once = [keyup_listener 0]
  /\ (forall n, listeners (toggle KeyboardLayer 0 n no_listeners)
                = map keyup_listener (seq 0 n))
  /\ content (dispatch Scenarios.keyboard_toggled_once
                (EvKeyUp (Scenarios.key_press "PrintScreen")) Scenarios.viewer)
     = Some hidden_style.
Proof.
  split; [reflexivity|]. split; [|reflexivity].
  intros n. now apply (keyboard_toggle n 0 no_listeners).
Qed.

End ListenerFacts.

(** ** Focus is the last signal *)

Section FocusFacts.

Import SecurityLayers Statements.

(** What [showContent] leaves pending: a restore 100 ms later when the
    content reference is live, nothing otherwise. *)
Lemma timers_showContent (w : World) :
  timers (showContent w) =
    (timers w ++ match content w with
                 | Some _ => [((now w + 100)%N, RestoreStyle)]
                 | None => []
                 end)%list.
Proof.
  unfold showContent. destruct (content w); simpl; [reflexivity|].
  now rewrite app_nil_r.
Qed.

Lemma focus_showContent (w : World) :
  isFocused (showContent w) = isFocused w /\ docHidden (showContent w) = docHidden w.
Proof. unfold showContent. now destruct (content w). Qed.

Lemma focus_hide (w : World) :
  isFocused (hideContentInstantly w) = isFocused w
  /\ docHidden (hideContentInstantly w) = docHidden w.
Proof. unfold hideContentInstantly. now destruct (content w). Qed.

(** C10. [isFocused] is the last signal, not the conjunction of
    window-focused and tab-visible.  Delivering "the document became
    visible" sets [isFocused] and calls the delayed show (a restore is
    pending 100 ms later whenever the content reference is live), in any
    state, also right after a window blur with no focus event in between;
    and a window focus event sets [isFocused] while the document stays
    hidden. *)
Theorem focus_last_signal_wins (w : World) :
  let visible := apply_input (Deliver HVisibilityChange (EvVisibilityChange false)) in
  let blur := apply_input (Deliver HBlur EvBlur) in
  let hidden := apply_input (Deliver HVisibilityChange (EvVisibilityChange true)) in
  let focus := apply_input (Deliver HFocus EvFocus) in
  (* document becomes visible *)
  visible w = showContent (setIsFocused true (set_docHidden false w))
  /\ isFocused (visible w) = true
  /\ timers (visible w) =
       (timers w ++ match content w with
                    | Some _ => [((now w + 100)%N, RestoreStyle)]
                    | None => []
                    end)%list
  (* ... also when the window was blurred last *)
  /\ isFocused (blur w) = false
  /\ isFocused (visible (blur w)) = true
  (* window focus while the document is hidden *)
  /\ isFocused (hidden w) = false
  /\ docHidden (focus (hidden w)) = true
  /\ isFocused (focus (hidden w)) = true.
Proof.
  cbn zeta. cbn [apply_input run_handler host_update].
  unfold handleVisibilityChange, handleBlur, handleFocus.
  cbn [docHidden set_docHidden setIsFocused].
  repeat match goal with
         | |- context [showContent ?x] =>
             let H1 := fresh in let H2 := fresh in
             destruct (focus_showContent x) as [H1 H2]; rewrite ?H1, ?H2; clear H1 H2;
             pose proof (timers_showContent x);
             generalize dependent (showContent x); intros
         end.
  repeat match goal with
         | |- context [hideContentInstantly ?x] =>
             let H1 := fresh in let H2 := fresh in
             destruct (focus_hide x) as [H1 H2];
             generalize dependent (hideContentInstantly x); intros
         end.
  cbn in *. repeat split; congruence.
Qed.

End FocusFacts.

(** ** Probing the signed-URL combinations *)

Section ProbeFacts.

Import SignedUrlProbe.

Lemma console_prints (ls : list Line) (st : Run) :
  console (fold_left (fun st l => print l st) ls st) = (console st ++ ls)%list
  /\ requests (fold_left (fun st l => print l st) ls st) = requests st.
Proof.
  revert st. induction ls as [|l ls IH]; intros st; simpl.
  - now rewrite app_nil_r.
  - destruct (IH (print l st)) as [-> ->]. simpl. now rewrite <- app_assoc.
Qed.

(** One pass through the inner loop body: one request, for the URL signed
    for this very pair, and the lines of [probe_lines]. *)
Lemma probe_step (env : Env) (rType type : string) (st : Run) :
  console (probe env rType type st) =
    (console st ++ probe_lines env (List.length (requests st), (rType, type)))%list
  /\ requests (probe env rType type st) =
       (requests st ++ [url env publicId rType type])%list.
Proof.
  unfold probe, probe_lines.
  match goal with
  | |- context [fold_left _ ?ls ?st0] => destruct (console_prints ls st0) as [-> ->]
  end.
  simpl. rewrite <- !app_assoc. split; reflexivity.
Qed.

(** Probing a list of pairs one after the other. *)
Lemma probe_list (env : Env) (pairs : list (string * string)) (st : Run) :
  let st' := fold_left (fun st c => probe env (fst c) (snd c) st) pairs st in
  console st' =
    (console st
     ++ flat_map (probe_lines env)
          (combine (seq (List.length (requests st)) (List.length pairs)) pairs))%list
  /\ requests st' =
       (requests st ++ map (fun c => url env publicId (fst c) (snd c)) pairs)%list.
Proof.
  revert st. induction pairs as [|[rType type] pairs IH]; intros st; cbn zeta.
  - simpl. now rewrite !app_nil_r.
  - cbn [fold_left fst snd]. destruct (IH (probe env rType type st)) as [Hc Hr].
    destruct (probe_step env rType type st) as [Hc1 Hr1].
    rewrite Hc, Hr, Hc1, Hr1. rewrite length_app, Nat.add_1_r.
    cbn [List.length seq combine flat_map map fst snd].
    rewrite <- !app_assoc. split; reflexivity.
Qed.

(** The nested loops visit the pairs of [combinations] in order. *)
Lemma testAccess_flat (env : Env) :
  testAccess env =
    fold_left (fun st c => probe env (fst c) (snd c) st) combinations
      (print (Log ("Cloud Name: " ++ cloud_name env))
         (print (Log "Testing Cloudinary Access...") start)).
Proof. reflexivity. Qed.

Lemma success_recorded (env : Env) (n : nat) (rType type : string) :
  In success_line (probe_lines env (n, (rType, type)))
  <-> get env n (url env publicId rType type) = Status 200.
Proof.
  unfold probe_lines. simpl.
  destruct (get env n (url env publicId rType type)) as [code|msg]; simpl.
  - destruct (Nat.eqb_spec code 200) as [-> | Hne].
    + split; [reflexivity | intros _; do 3 right; now left].
    + split.
      * intros [H | [H | [H | [H | []]]]]; discriminate H.
      * intros H. injection H as H. contradiction.
  - split.
    + intros [H | [H | [H | []]]]; discriminate H.
    + discriminate.
Qed.

(** C9. Signed-URL combination probing: the script tries every pair of
    {image, raw, auto} x {upload, authenticated}, resource type in the
    outer loop and delivery type in the inner one; it signs a URL for each
    pair and fetches exactly that URL; and the success line is printed for
    a pair exactly when its fetch answers with status 200. *)
Theorem probe_all_combinations (env : Env) :
  combinations =
    [("image", "upload"); ("image", "authenticated");
     ("raw", "upload"); ("raw", "authenticated");
     ("auto", "upload"); ("auto", "authenticated")]
  /\ requests (testAccess env) =
       map (fun c => url env publicId (fst c) (snd c)) combinations
  /\ console (testAccess env) =
       ([Log "Testing Cloudinary Access..."; Log ("Cloud Name: " ++ cloud_name env)]
        ++ flat_map (probe_lines env) (numbered combinations))%list
  /\ (forall n c,
        In success_line (probe_lines env (n, c))
        <-> get env n (url env publicId (fst c) (snd c)) = Status 200).
Proof.
  split; [reflexivity|].
  assert (H : console (testAccess env) =
                ([Log "Testing Cloudinary Access..."; Log ("Cloud Name: " ++ cloud_name env)]
                 ++ flat_map (probe_lines env) (numbered combinations))%list
              /\ requests (testAccess env) =
                   map (fun c => url env publicId (fst c) (snd c)) combinations).
  { rewrite testAccess_flat.
    match goal with
    | |- context [fold_left _ combinations ?st0] =>
        destruct (probe_list env combinations st0) as [Hc Hr]
    end.
    rewrite Hc, Hr. split; reflexivity. }
  destruct H as [Hc Hr]. split; [exact Hr|]. split; [exact Hc|].
  intros n [rType type]. apply success_recorded.
Qed.

End ProbeFacts.

(** ** Invariants of the running hook *)

Section HookInvariants.

Import SecurityLayers Statements Observations.

Lemma well_formed_frame (w w' : World) :
  now w' = now w -> timers w' = timers w ->
  triggerCount w' = triggerCount w -> sink w' = sink w ->
  well_formed w -> well_formed w'.
Proof.
  unfold well_formed, timers_ahead, counted, chronological.
  now intros -> -> -> ->.
Qed.

Lemma sorted_snoc {A : Type} (R : A -> A -> Prop) (l : list A) (x : A) :
  StronglySorted R l -> Forall (fun a => R a x) l -> StronglySorted R (l ++ [x]).
Proof.
  induction 1 as [|a l Hs IH Ha]; intros Hx; simpl.
  - repeat constructor.
  - inversion Hx; subst. constructor; [now apply IH|].
    apply Forall_app. split; [exact Ha | now constructor].
Qed.

Lemma well_formed_logEvent (ty : EventType) (d : list (string * Js.value)) (w : World) :
  well_formed w -> well_formed (logEvent ty d w).
Proof.
  intros (Ht & Hc & Hs & Hn). repeat split.
  - exact Ht.
  - unfold counted in *. simpl. rewrite length_app, Hc. simpl. lia.
  - simpl. apply sorted_snoc; [exact Hs | exact Hn].
  - simpl. apply Forall_app. split; [exact Hn|]. constructor; [simpl; lia | constructor].
Qed.

Lemma well_formed_setTimeout (cb : TimerCallback) (d : N) (w : World) :
  (0 < d)%N -> well_formed w -> well_formed (setTimeout cb d w).
Proof.
  intros Hd (Ht & Hc & Hs). repeat split; try apply Hs; [|exact Hc].
  unfold timers_ahead in *. simpl. apply Forall_app. split; [exact Ht|].
  constructor; [simpl; lia | constructor].
Qed.

Lemma well_formed_showViolation (m : string) (w : World) :
  well_formed w -> well_formed (showViolation m w).
Proof.
  intros H. unfold showViolation. apply well_formed_setTimeout; [reflexivity|].
  now apply (well_formed_frame w).
Qed.

Lemma well_formed_hide (w : World) :
  well_formed w -> well_formed (hideContentInstantly w).
Proof.
  intros H. unfold hideContentInstantly. destruct (content w); [|exact H].
  now apply (well_formed_frame w).
Qed.

Lemma well_formed_show (w : World) : well_formed w -> well_formed (showContent w).
Proof.
  intros H. unfold showContent. destruct (content w); [|exact H].
  now apply well_formed_setTimeout.
Qed.

Lemma well_formed_clipboard (w : World) :
  well_formed w -> well_formed (overwrite_clipboard w).
Proof.
  intros H. unfold overwrite_clipboard, writeText.
  destruct (clipboardApi w); [exact H | |]; now apply (well_formed_frame w).
Qed.

Lemma well_formed_preventDefault (w : World) :
  well_formed w -> well_formed (preventDefault w).
Proof. now apply well_formed_frame. Qed.

Lemma well_formed_setIsFocused (b : bool) (w : World) :
  well_formed w -> well_formed (setIsFocused b w).
Proof. now apply well_formed_frame. Qed.

Ltac wf_steps :=
  repeat match goal with
         | |- well_formed (showViolation _ _) => apply well_formed_showViolation
         | |- well_formed (logEvent _ _ _) => apply well_formed_logEvent
         | |- well_formed (setTimeout _ _ _) =>
             apply well_formed_setTimeout; [reflexivity|]
         | |- well_formed (showContent _) => apply well_formed_show
         | |- well_formed (hideContentInstantly _) => apply well_formed_hide
         | |- well_formed (overwrite_clipboard _) => apply well_formed_clipboard
         | |- well_formed (preventDefault _) => apply well_formed_preventDefault
         | |- well_formed (setIsFocused _ _) => apply well_formed_setIsFocused
         end;
  try assumption.

Lemma well_formed_keydown (e : KeyEvent) (w : World) :
  well_formed w -> well_formed (handleKeyDown e w).
Proof.
  intros Hw. unfold handleKeyDown.
  destruct (first_match e); [wf_steps|].
  destruct (key e =? "F12"); [wf_steps|].
  destruct (key e =? "PrintScreen"); [wf_steps|].
  destruct ((key e =? "Meta") || (key e =? "OS")); wf_steps.
Qed.

Lemma well_formed_keyup (e : KeyEvent) (w : World) :
  well_formed w -> well_formed (handleKeyUp e w).
Proof.
  intros Hw. unfold handleKeyUp.
  destruct (key e =? "PrintScreen"), ((key e =? "Meta") || (key e =? "OS")); wf_steps.
Qed.

Lemma well_formed_resize (newWidth newHeight : Z) (w : World) :
  well_formed w -> well_formed (handleResize newWidth newHeight w).
Proof.
  intros Hw. unfold handleResize.
  destruct (_ || _).
  - match goal with
    | |- well_formed (set_last _ _ ?x) => apply (well_formed_frame x); try reflexivity
    end.
    now apply well_formed_logEvent.
  - now apply (well_formed_frame w).
Qed.

Lemma well_formed_handler (h : HandlerName) (ev : DomEvent) (w : World) :
  well_formed w -> well_formed (run_handler h ev (host_update ev w)).
Proof.
  intros Hw.
  assert (Hu : well_formed (host_update ev w))
    by (destruct ev; simpl; try exact Hw; now apply (well_formed_frame w)).
  revert Hu. generalize (host_update ev w). clear w Hw. intros w Hw.
  destruct h, ev; cbn [run_handler]; try exact Hw;
    first [ now apply well_formed_keydown
          | now apply well_formed_keyup
          | now apply well_formed_resize
          | unfold handleContextMenu, handleFocus, handleBlur, handleVisibilityChange,
                   handleCopy;
            try destruct (docHidden w); wf_steps ].
Qed.

Lemma well_formed_advance (dt : N) (w : World) :
  well_formed w -> well_formed (advance dt w).
Proof.
  intros (Ht & Hc & Hs & Hn).
  destruct (same_report_advance dt w) as (Hsink & Hcount & _).
  pose proof (now_advance dt w) as Hnow.
  repeat split.
  - unfold timers_ahead. rewrite Hnow. unfold advance. apply run_until_done.
  - unfold counted. now rewrite Hcount, Hsink.
  - now rewrite Hsink.
  - rewrite Hsink, Hnow. eapply Forall_impl; [|exact Hn]. simpl. intros ev Hev. lia.
Qed.

Lemma well_formed_input (i : Input) (w : World) :
  well_formed w -> well_formed (apply_input i w).
Proof.
  intros Hw. destruct i; simpl.
  - now apply well_formed_handler.
  - unfold checkDevTools.
    destruct (isOpen s && negb (devToolsOpen w)).
    + apply well_formed_logEvent. now apply (well_formed_frame w).
    + destruct (negb (isOpen s) && devToolsOpen w); [|exact Hw].
      now apply (well_formed_frame w).
  - now apply well_formed_advance.
  - now apply well_formed_showViolation.
  - now apply well_formed_logEvent.
  - now apply (well_formed_frame w).
  - now apply (well_formed_frame w).
  - now apply (well_formed_frame w).
Qed.

Lemma reachable_well_formed (w : World) : reachable w -> well_formed w.
Proof.
  induction 1 as [ow oh surface api | i w Hr IH].
  - repeat split; constructor.
  - now apply well_formed_input.
Qed.

End HookInvariants.

(** ** The event trail *)

Section TrailFacts.

Import SecurityLayers Statements Observations.

(** X1. In every state the hook reaches, the [triggerCount] it returns is
    the number of security events handed to [onSecurityEvent]. *)
Theorem trigger_count_counts_events (w : World) :
  reachable w -> triggerCount w = List.length (sink w).
Proof. intros Hr. apply (reachable_well_formed w Hr). Qed.

Lemma trigger_count_counts_events_witness :
  triggerCount (run Scenarios.blur_print_focus Scenarios.viewer)
  = List.length (sink (run Scenarios.blur_print_focus Scenarios.viewer)).
Proof.
  apply (trigger_count_counts_events (run Scenarios.blur_print_focus Scenarios.viewer)).
  apply reachable_run. apply reachable_mount.
Defined.

(** X2. In every state the hook reaches, the events handed to the sink are
    in the order of their timestamps, and none carries a timestamp later
    than the current instant. *)
Theorem event_trail_chronological (w : World) :
  reachable w ->
  StronglySorted (fun a b => (timestamp a <= timestamp b)%N) (sink w)
  /\ Forall (fun ev => (timestamp ev <= now w)%N) (sink w).
Proof. intros Hr. apply (reachable_well_formed w Hr). Qed.

Lemma event_trail_chronological_witness :
  StronglySorted (fun a b => (timestamp a <= timestamp b)%N)
    (sink (run Scenarios.blur_print_focus Scenarios.viewer))
  /\ Forall (fun ev => (timestamp ev <= now (run Scenarios.blur_print_focus Scenarios.viewer))%N)
       (sink (run Scenarios.blur_print_focus Scenarios.viewer)).
Proof.
  apply (event_trail_chronological (run Scenarios.blur_print_focus Scenarios.viewer)).
  apply reachable_run. apply reachable_mount.
Defined.

End TrailFacts.

(** ** Hiding and showing the protected element *)

Section SurfaceFacts.

Import SecurityLayers Statements Observations.

Lemma extract_min_incl (l : list (N * TimerCallback)) :
  forall m rest, extract_min l = Some (m, rest) ->
  In m l /\ (forall x, In x rest -> In x l).
Proof.
  induction l as [|entry l IH]; intros m rest H; simpl in H; [discriminate|].
  destruct (extract_min l) as [[m' rest']|] eqn:E.
  - destruct (IH _ _ eq_refl) as [Hm Hr].
    destruct (fst entry <=? fst m')%N; injection H as <- <-.
    + split; [now left | intros x Hx; now right].
    + split; [now right|]. intros x [<- | Hx]; [now left | right; now apply Hr].
  - injection H as <- <-. split; [now left | intros x []].
Qed.

Lemma restore_due_after (target : N) (l : list (N * TimerCallback)) :
  Forall (fun x => (target < fst x)%N) l -> existsb (restore_due target) l = false.
Proof.
  induction 1 as [|x l Hx Hl IH]; simpl; [reflexivity|].
  rewrite IH, orb_false_r. unfold restore_due.
  destruct (snd x); [reflexivity | |]; apply N.leb_gt; lia.
Qed.

Lemma restore_due_quiet (target : N) (l : list (N * TimerCallback)) :
  Forall (fun x => snd x = ClearViolation) l -> existsb (restore_due target) l = false.
Proof.
  induction 1 as [|x l Hx Hl IH]; simpl; [reflexivity|].
  rewrite IH, orb_false_r. unfold restore_due. now rewrite Hx.
Qed.

Lemma quiet_shows_ahead (w : World) : quiet_surface w -> shows_ahead w.
Proof.
  unfold quiet_surface, shows_ahead. intros H.
  eapply Forall_impl; [|exact H]. simpl. intros x Hx Hc. congruence.
Qed.

Lemma ahead_shows_ahead (w : World) : timers_ahead w -> shows_ahead w.
Proof.
  unfold timers_ahead, shows_ahead. intros H.
  eapply Forall_impl; [|exact H]. simpl. intros x Hx _. lia.
Qed.

(** The element [target - now] ms from now, read off the pending timeouts:
    shown if a restore comes due, as it is otherwise. *)
Lemma content_run_until (target : N) (w : World) :
  forall st, content w = Some st -> shows_ahead w ->
  content (run_until target w)
  = Some (if existsb (restore_due target) (timers w) then shown_style else st).
Proof.
  apply (run_until_ind
           (fun w r => forall st, content w = Some st -> shows_ahead w ->
                       content r = Some (if existsb (restore_due target) (timers w)
                                         then shown_style else st))).
  - intros w' E st Hc _. apply next_due_none in E.
    now rewrite (restore_due_after _ _ E).
  - intros w' m rest r E IH st Hc Ha. apply next_due_some in E. destruct E as [E Hm].
    destruct (extract_min_incl _ _ _ E) as [Hin Hrest].
    pose proof (extract_min_least _ _ _ E) as Hleast.
    rewrite (extract_min_existsb _ _ _ _ E).
    unfold shows_ahead in Ha. rewrite Forall_forall in Ha, Hleast.
    assert (Hrest' : forall x, In x rest -> snd x = CallShowContent ->
                               (N.max (now w') (fst m) <= fst x)%N).
    { intros x Hx Hcs. specialize (Ha x (Hrest x Hx) Hcs).
      specialize (Hleast x (Hrest x Hx)). simpl in Hleast. lia. }
    destruct m as [t cb]. simpl in *. destruct cb.
    + (* a clear of the banner *)
      rewrite (IH st); [reflexivity | unfold fire; simpl; exact Hc|].
      unfold shows_ahead, fire. simpl. apply Forall_forall. exact Hrest'.
    + (* [showContent] *)
      assert (Hnow : N.max (now w') t = t) by (specialize (Ha _ Hin eq_refl); simpl in Ha; lia).
      assert (Hf : timers (fire (t, CallShowContent) rest w')
                   = (rest ++ [((t + 100)%N, RestoreStyle)])%list
                   /\ content (fire (t, CallShowContent) rest w') = Some st
                   /\ now (fire (t, CallShowContent) rest w') = t).
      { unfold fire. simpl. unfold showContent. simpl. rewrite Hc. simpl.
        now rewrite Hnow. }
      destruct Hf as (Hft & Hfc & Hfn).
      rewrite (IH st Hfc).
      * rewrite Hft, existsb_app. simpl. unfold restore_due at 2 3. simpl.
        rewrite orb_false_r, orb_comm. reflexivity.
      * unfold shows_ahead. rewrite Hft, Hfn. apply Forall_app. split.
        -- apply Forall_forall. intros x Hx Hcs. specialize (Hrest' x Hx Hcs). lia.
        -- constructor; [discriminate | constructor].
    + (* a restore *)
      unfold restore_due at 1. simpl. apply N.leb_le in Hm. rewrite Hm. simpl.
      assert (Hf : timers (fire (t, RestoreStyle) rest w') = rest
                   /\ content (fire (t, RestoreStyle) rest w') = Some shown_style
                   /\ now (fire (t, RestoreStyle) rest w') = N.max (now w') t).
      { unfold fire. simpl. rewrite Hc. simpl. repeat split. }
      destruct Hf as (Hft & Hfc & Hfn).
      rewrite (IH shown_style Hfc).
      * rewrite Hft. now destruct (existsb (restore_due target) rest).
      * unfold shows_ahead. rewrite Hft, Hfn. apply Forall_forall. exact Hrest'.
Qed.

Lemma content_advance (e : N) (w : World) (st : Style) :
  content w = Some st -> shows_ahead w ->
  content (advance e w)
  = Some (if existsb (restore_due (now w + e)) (timers w) then shown_style else st).
Proof. unfold advance. apply content_run_until. Qed.

(** Timer callbacks keep a live element live and leave the focus flag. *)
Lemma live_advance (e : N) (w : World) :
  content w <> None ->
  content (advance e w) <> None /\ isFocused (advance e w) = isFocused w.
Proof.
  intros Hc.
  apply (advance_invariant
           (fun x => content x <> None /\ isFocused x = isFocused w));
    [| |split; [exact Hc | reflexivity]].
  - intros m rest x [Hx Hf]. unfold fire. destruct (snd m); simpl.
    + now split.
    + unfold showContent. simpl. destruct (content x) eqn:Ex; [|contradiction].
      simpl. rewrite Ex. split; [discriminate | exact Hf].
    + destruct (content x); [|contradiction]. simpl. split; [discriminate | exact Hf].
  - intros t x H. exact H.
Qed.

Lemma quiet_run_until (target : N) (w : World) :
  quiet_surface w -> quiet_surface (run_until target w).
Proof.
  apply (run_until_ind (fun w r => quiet_surface w -> quiet_surface r)).
  - intros w' _ H. exact H.
  - intros w' m rest r E IH Hq. apply IH. apply next_due_some in E.
    destruct E as [E _]. destruct (extract_min_incl _ _ _ E) as [Hin Hrest].
    unfold quiet_surface in *. rewrite Forall_forall in Hq.
    unfold fire. rewrite (Hq m Hin). simpl.
    apply Forall_forall. intros x Hx. apply Hq. now apply Hrest.
Qed.

Lemma restore_due_snoc (target : N) (l : list (N * TimerCallback))
    (x : N * TimerCallback) :
  Forall (fun y => snd y = ClearViolation) l ->
  existsb (restore_due target) (l ++ [x]) = restore_due target x.
Proof.
  intros Hq. rewrite existsb_app, (restore_due_quiet _ _ Hq). simpl.
  apply orb_false_r.
Qed.

Lemma shows_ahead_snoc (l : list (N * TimerCallback)) (w' : World)
    (x : N * TimerCallback) :
  Forall (fun y => snd y = ClearViolation) l -> timers w' = (l ++ [x])%list ->
  (snd x = CallShowContent -> (now w' <= fst x)%N) -> shows_ahead w'.
Proof.
  intros Hq Ht Hx. unfold shows_ahead. rewrite Ht. apply Forall_app. split.
  - eapply Forall_impl; [|exact Hq]. simpl. intros y Hy Hc. congruence.
  - constructor; [exact Hx | constructor].
Qed.

Lemma blur_frames (w : World) :
  content (handleBlur w) = hidden_from w
  /\ isFocused (handleBlur w) = false
  /\ timers (handleBlur w) = timers w
  /\ now (handleBlur w) = now w
  /\ sink (handleBlur w)
     = (sink w ++ [{| type := FOCUS_LOST; timestamp := now w; details := [] |}])%list.
Proof.
  unfold handleBlur, hideContentInstantly, hidden_from. simpl.
  destruct (content w) eqn:E; simpl; rewrite ?E; repeat split.
Qed.

Lemma focus_frames (w : World) (st : Style) :
  content w = Some st ->
  content (handleFocus w) = Some st
  /\ isFocused (handleFocus w) = true
  /\ timers (handleFocus w) = (timers w ++ [((now w + 100)%N, RestoreStyle)])%list
  /\ now (handleFocus w) = now w
  /\ sink (handleFocus w) = sink w.
Proof.
  intros Hc. unfold handleFocus, showContent. simpl. rewrite Hc. simpl.
  rewrite Hc. repeat split.
Qed.

(** X3. A hide does not cancel a pending show.  The window is focused
    while the element is live and blurred again [d] < 100 ms later: the
    blur hides the element at once, but when the 100 ms of the earlier
    focus are over the element is shown again, although the window is
    still unfocused. *)
Theorem pending_show_overrides_hide (w : World) (d : N) :
  content w <> None -> (d < 100)%N ->
  let blurred := handleBlur (advance d (handleFocus w)) in
  content blurred = Some hidden_style
  /\ isFocused blurred = false
  /\ content (advance (100 - d) blurred) = Some shown_style
  /\ isFocused (advance (100 - d) blurred) = false.
Proof.
  intros Hc Hd blurred.
  destruct (content w) as [st|] eqn:Hst; [clear Hc | contradiction].
  destruct (focus_frames w st Hst) as (Fc & _ & Ft & Fn & _).
  assert (Hlive : content (advance d (handleFocus w)) <> None)
    by (apply live_advance; congruence).
  destruct (blur_frames (advance d (handleFocus w))) as (Bc & Bf & Bt & Bn & _).
  fold blurred in Bc, Bf, Bt, Bn.
  assert (Hh : content blurred = Some hidden_style).
  { rewrite Bc. unfold hidden_from. now destruct (content (advance d (handleFocus w))). }
  assert (Hnow : now blurred = (now w + d)%N) by (rewrite Bn, now_advance, Fn; reflexivity).
  assert (Hpending : In ((now w + 100)%N, RestoreStyle) (timers blurred)).
  { rewrite Bt. unfold advance. apply pending_kept.
    - rewrite Fn. simpl. lia.
    - rewrite Ft. apply in_or_app. right. now left. }
  assert (Hahead : shows_ahead blurred).
  { apply ahead_shows_ahead. unfold timers_ahead. rewrite Bt, Bn.
    rewrite now_advance. unfold advance. apply run_until_done. }
  split; [exact Hh|]. split; [exact Bf|]. split.
  - rewrite (content_advance _ _ _ Hh Hahead).
    replace (existsb _ _) with true; [reflexivity|].
    symmetry. apply existsb_exists. exists ((now w + 100)%N, RestoreStyle).
    split; [exact Hpending|]. unfold restore_due. cbn [fst snd]. apply N.leb_le.
    rewrite Hnow. lia.
  - destruct (live_advance (100 - d) blurred) as [_ ->]; [congruence | exact Bf].
Qed.

Lemma pending_show_overrides_hide_witness :
  Scenarios.viewer.(content) <> None /\ (50 < 100)%N
  /\ let blurred := handleBlur (advance 50 (handleFocus Scenarios.viewer)) in
     content blurred = Some hidden_style
     /\ isFocused blurred = false
     /\ content (advance (100 - 50) blurred) = Some shown_style
     /\ isFocused (advance (100 - 50) blurred) = false.
Proof.
  split; [discriminate|]. split; [reflexivity|].
  apply (pending_show_overrides_hide Scenarios.viewer 50); [discriminate | reflexivity].
Defined.

(** X4. Blur and focus, end to end.  On a live element with no show
    pending, a window blur hides the element at once, clears [isFocused]
    and emits exactly one FOCUS_LOST; a following focus sets [isFocused] at
    once but the element stays hidden for 100 ms and is shown from then
    on. *)
Theorem blur_then_focus (w : World) :
  content w <> None -> quiet_surface w ->
  let blurred := handleBlur w in
  let focused := handleFocus blurred in
  content blurred = Some hidden_style
  /\ isFocused blurred = false
  /\ sink blurred
     = (sink w ++ [{| type := FOCUS_LOST; timestamp := now w; details := [] |}])%list
  /\ isFocused focused = true
  /\ sink focused = sink blurred
  /\ (forall e, (e < 100)%N -> content (advance e focused) = Some hidden_style)
  /\ (forall e, (100 <= e)%N -> content (advance e focused) = Some shown_style).
Proof.
  intros Hc Hq blurred focused.
  destruct (blur_frames w) as (Bc & Bf & Bt & Bn & Bs). fold blurred in Bc, Bf, Bt, Bn, Bs.
  assert (Hh : content blurred = Some hidden_style).
  { rewrite Bc. unfold hidden_from. now destruct (content w). }
  destruct (focus_frames blurred hidden_style Hh) as (Fc & Ff & Ft & Fn & Fs).
  fold focused in Fc, Ff, Ft, Fn, Fs. rewrite Bt, Bn in Ft. rewrite Bn in Fn.
  assert (Ha : shows_ahead focused)
    by (apply (shows_ahead_snoc (timers w) focused _ Hq Ft); discriminate).
  assert (Hcontent : forall e, content (advance e focused)
                               = Some (if (now w + 100 <=? now w + e)%N
                                       then shown_style else hidden_style)).
  { intros e. rewrite (content_advance _ _ _ Fc Ha), Ft, Fn.
    now rewrite (restore_due_snoc _ _ _ Hq). }
  repeat split; try assumption.
  - intros e He. rewrite Hcontent.
    assert (Hf : (now w + 100 <=? now w + e)%N = false) by (apply N.leb_gt; lia).
    now rewrite Hf.
  - intros e He. rewrite Hcontent.
    assert (Ht : (now w + 100 <=? now w + e)%N = true) by (apply N.leb_le; lia).
    now rewrite Ht.
Qed.

Lemma blur_then_focus_witness :
  let blurred := handleBlur Scenarios.viewer in
  let focused := handleFocus blurred in
  content blurred = Some hidden_style
  /\ isFocused blurred = false
  /\ sink blurred
     = (sink Scenarios.viewer
        ++ [{| type := FOCUS_LOST; timestamp := now Scenarios.viewer; details := [] |}])%list
  /\ isFocused focused = true
  /\ sink focused = sink blurred
  /\ (forall e, (e < 100)%N -> content (advance e focused) = Some hidden_style)
  /\ (forall e, (100 <= e)%N -> content (advance e focused) = Some shown_style).
Proof.
  apply (blur_then_focus Scenarios.viewer); [discriminate | constructor].
Defined.

Lemma first_match_menu_key (e : KeyEvent) :
  key e = "Meta" \/ key e = "OS" -> first_match e = None.
Proof.
  intros [H | H]; unfold first_match, blockedCombinations, combo_matches; rewrite H;
    simpl; now rewrite !andb_false_r.
Qed.

Lemma menu_key_handlers (e : KeyEvent) (w : World) :
  key e = "Meta" \/ key e = "OS" ->
  handleKeyDown e w = hideContentInstantly w
  /\ handleKeyUp e w = setTimeout CallShowContent 1000 w.
Proof.
  intros H. unfold handleKeyDown, handleKeyUp. rewrite (first_match_menu_key e H).
  destruct H as [-> | ->]; split; reflexivity.
Qed.

(** The element [t] ms after a state in which it is hidden, only clears
    and one [showContent] due [delay] ms from now are pending. *)
Lemma hidden_until_show (w' : World) (l : list (N * TimerCallback))
    (base delay t : N) :
  content w' = Some hidden_style ->
  Forall (fun y => snd y = ClearViolation) l ->
  now w' = base ->
  timers w' = (l ++ [((base + delay)%N, CallShowContent)])%list ->
  content (advance t w')
  = Some (if (delay + 100 <=? t)%N then shown_style else hidden_style).
Proof.
  intros Hc Hq <- Ht.
  assert (Ha : shows_ahead w') by (apply (shows_ahead_snoc l w' _ Hq Ht); simpl; lia).
  rewrite (content_advance _ _ _ Hc Ha), Ht, (restore_due_snoc _ _ _ Hq).
  unfold restore_due. cbn [fst snd].
  destruct (N.leb_spec (delay + 100) t) as [H | H].
  - replace (_ <=? _)%N with true; [reflexivity | symmetry; apply N.leb_le; lia].
  - replace (_ <=? _)%N with false; [reflexivity | symmetry; apply N.leb_gt; lia].
Qed.

(** X5. The platform-menu key.  Pressing Meta (or OS) on a live element
    with no show pending hides the element at once and does nothing else:
    no event, no violation, no suppressed default.  The element stays
    hidden while the key is held, and after the release it stays hidden
    for 1100 ms and is shown from then on. *)
Theorem platform_key_hides_until_release (e : KeyEvent) (w : World) (held : N) :
  key e = "Meta" \/ key e = "OS" -> content w <> None -> quiet_surface w ->
  let pressed := handleKeyDown e w in
  let released := handleKeyUp e (advance held pressed) in
  content pressed = Some hidden_style
  /\ sink pressed = sink w
  /\ securityViolation pressed = securityViolation w
  /\ prevented pressed = prevented w
  /\ content (advance held pressed) = Some hidden_style
  /\ sink released = sink w
  /\ (forall t, (t < 1100)%N -> content (advance t released) = Some hidden_style)
  /\ (forall t, (1100 <= t)%N -> content (advance t released) = Some shown_style).
Proof.
  intros Hk Hc Hq pressed released.
  destruct (menu_key_handlers e w Hk) as [Hdown _].
  destruct (menu_key_handlers e (advance held pressed) Hk) as [_ Hup].
  fold pressed in Hdown. fold released in Hup.
  destruct (hide_frames w) as (Pc & _ & _ & _ & Ps & Pt & Pn).
  rewrite <- Hdown in Pc, Ps, Pt, Pn.
  assert (Ph : content pressed = Some hidden_style).
  { rewrite Pc. unfold hidden_from. now destruct (content w). }
  assert (Pq : quiet_surface pressed) by (unfold quiet_surface; now rewrite Pt).
  assert (Hheld : content (advance held pressed) = Some hidden_style).
  { rewrite (content_advance _ _ _ Ph (quiet_shows_ahead _ Pq)).
    now rewrite (restore_due_quiet _ _ Pq). }
  assert (Hq' : quiet_surface (advance held pressed))
    by (unfold advance; now apply quiet_run_until).
  destruct (same_report_advance held pressed) as (Hs & _ & _).
  assert (Hrel : forall t, content (advance t released)
                           = Some (if (1000 + 100 <=? t)%N then shown_style
                                   else hidden_style)).
  { intros t.
    apply (hidden_until_show released (timers (advance held pressed))
             (now (advance held pressed))).
    - rewrite Hup. exact Hheld.
    - exact Hq'.
    - rewrite Hup. reflexivity.
    - rewrite Hup. reflexivity. }
  split; [exact Ph|]. split; [exact Ps|].
  split; [rewrite Hdown; unfold hideContentInstantly; now destruct (content w)|].
  split; [rewrite Hdown; unfold hideContentInstantly; now destruct (content w)|].
  split; [exact Hheld|].
  split; [rewrite Hup; simpl; now rewrite Hs, Ps|].
  split; intros t Ht; rewrite Hrel.
  - replace (_ <=? _)%N with false; [reflexivity | symmetry; apply N.leb_gt; lia].
  - replace (_ <=? _)%N with true; [reflexivity | symmetry; apply N.leb_le; lia].
Qed.

Lemma platform_key_hides_until_release_witness :
  let pressed := handleKeyDown Scenarios.meta_key Scenarios.viewer in
  let released := handleKeyUp Scenarios.meta_key (advance 400 pressed) in
  content pressed = Some hidden_style
  /\ sink pressed = sink Scenarios.viewer
  /\ securityViolation pressed = securityViolation Scenarios.viewer
  /\ prevented pressed = prevented Scenarios.viewer
  /\ content (advance 400 pressed) = Some hidden_style
  /\ sink released = sink Scenarios.viewer
  /\ (forall t, (t < 1100)%N -> content (advance t released) = Some hidden_style)
  /\ (forall t, (1100 <= t)%N -> content (advance t released) = Some shown_style).
Proof.
  apply (platform_key_hides_until_release Scenarios.meta_key Scenarios.viewer 400);
    [left; reflexivity | discriminate | constructor].
Defined.

Lemma printscreen_surface (e : KeyEvent) (w : World) (st : Style) :
  key e = "PrintScreen" -> content w = Some st ->
  (content (handleKeyDown e w) = Some hidden_style
   /\ now (handleKeyDown e w) = now w
   /\ timers (handleKeyDown e w)
      = ((timers w ++ [((now w + 3000)%N, ClearViolation)])
         ++ [((now w + 2000)%N, CallShowContent)])%list)
  /\ (content (handleKeyUp e w) = Some hidden_style
      /\ now (handleKeyUp e w) = now w
      /\ timers (handleKeyUp e w)
         = (timers w ++ [((now w + 2000)%N, CallShowContent)])%list).
Proof.
  intros Hk Hc. unfold handleKeyDown, handleKeyUp.
  rewrite (first_match_printscreen e Hk), Hk. simpl.
  unfold overwrite_clipboard, writeText, hideContentInstantly. simpl. rewrite Hc. simpl.
  destruct (clipboardApi w); simpl; rewrite <- ?app_assoc; repeat split.
Qed.

(** X6. PrintScreen hides for 2100 ms.  On a live element with no show
    pending, a PrintScreen keydown, and likewise a PrintScreen keyup,
    leaves the element hidden for the 2000 ms of its timeout plus the
    100 ms of [showContent], and shown from then on, whatever the
    clipboard did. *)
Theorem printscreen_hides_for_2100 (e : KeyEvent) (w : World) :
  key e = "PrintScreen" -> content w <> None -> quiet_surface w ->
  (forall t, (t < 2100)%N ->
     content (advance t (handleKeyDown e w)) = Some hidden_style
     /\ content (advance t (handleKeyUp e w)) = Some hidden_style)
  /\ (forall t, (2100 <= t)%N ->
        content (advance t (handleKeyDown e w)) = Some shown_style
        /\ content (advance t (handleKeyUp e w)) = Some shown_style).
Proof.
  intros Hk Hc Hq. destruct (content w) as [st|] eqn:Hst; [clear Hc | contradiction].
  destruct (printscreen_surface e w st Hk Hst) as ((Dc & Dn & Dt) & (Uc & Un & Ut)).
  assert (Hq3 : Forall (fun y => snd y = ClearViolation)
                  (timers w ++ [((now w + 3000)%N, ClearViolation)]))
    by (apply Forall_app; split; [exact Hq | repeat constructor]).
  pose proof (fun t => hidden_until_show _ _ _ 2000 t Dc Hq3 Dn Dt) as Hdown.
  pose proof (fun t => hidden_until_show _ _ _ 2000 t Uc Hq Un Ut) as Hup.
  split; intros t Ht; rewrite Hdown, Hup.
  - replace (_ <=? _)%N with false; [now split | symmetry; apply N.leb_gt; lia].
  - replace (_ <=? _)%N with true; [now split | symmetry; apply N.leb_le; lia].
Qed.

Lemma printscreen_hides_for_2100_witness :
  (forall t, (t < 2100)%N ->
     content (advance t (handleKeyDown (Scenarios.key_press "PrintScreen") Scenarios.viewer))
     = Some hidden_style
     /\ content (advance t (handleKeyUp (Scenarios.key_press "PrintScreen") Scenarios.viewer))
        = Some hidden_style)
  /\ (forall t, (2100 <= t)%N ->
        content (advance t (handleKeyDown (Scenarios.key_press "PrintScreen") Scenarios.viewer))
        = Some shown_style
        /\ content (advance t (handleKeyUp (Scenarios.key_press "PrintScreen") Scenarios.viewer))
           = Some shown_style).
Proof.
  apply (printscreen_hides_for_2100 (Scenarios.key_press "PrintScreen") Scenarios.viewer);
    [reflexivity | discriminate | constructor].
Defined.

End SurfaceFacts.

(** ** Resize monitoring and DevTools polling, in general *)

Section DetectorFacts.

Import SecurityLayers Statements Observations.

Lemma last_default {A : Type} (x : A) (l : list A) (d d' : A) :
  last (x :: l) d = last (x :: l) d'.
Proof.
  revert x. induction l as [|y l IH]; intros x; [reflexivity|].
  cbn [last]. apply IH.
Qed.

Lemma resize_step (newWidth newHeight : Z) (w : World) :
  let w' := handleResize newWidth newHeight w in
  lastWidth w' = newWidth /\ lastHeight w' = newHeight
  /\ now w' = now w
  /\ exists evs,
       sink w' = (sink w ++ evs)%list
       /\ List.length evs
          = (if big_jump (lastWidth w) (lastHeight w) newWidth newHeight then 1 else 0)%nat
       /\ Forall (fun ev => type ev = LARGE_RESIZE_DETECTED) evs.
Proof.
  unfold handleResize, big_jump. destruct (_ || _); simpl; repeat split.
  - eexists. split; [reflexivity|]. split; [reflexivity|]. repeat constructor.
  - exists []. rewrite app_nil_r. repeat split. constructor.
Qed.

(** X7. The resize signal is level-triggered against the previous size.
    Along any run of resize notifications the hook emits one
    LARGE_RESIZE_DETECTED for every step whose width or height differs by
    more than 500 px from the size remembered at the step before, and
    nothing else; the remembered size is rebased at every step, fired or
    not.  So a window resized in steps of at most 500 px is never
    reported, however far it drifts. *)
Theorem resize_level_triggered (sizes : list (Z * Z)) (w : World) :
  let w' := resizes sizes w in
  (exists evs,
     sink w' = (sink w ++ evs)%list
     /\ List.length evs = jumps (lastWidth w) (lastHeight w) sizes
     /\ Forall (fun ev => type ev = LARGE_RESIZE_DETECTED) evs)
  /\ (lastWidth w', lastHeight w') = last sizes (lastWidth w, lastHeight w)
  /\ (jumps (lastWidth w) (lastHeight w) sizes = 0%nat -> sink w' = sink w).
Proof.
  cbn zeta.
  assert (H : (exists evs,
                 sink (resizes sizes w) = (sink w ++ evs)%list
                 /\ List.length evs = jumps (lastWidth w) (lastHeight w) sizes
                 /\ Forall (fun ev => type ev = LARGE_RESIZE_DETECTED) evs)
              /\ (lastWidth (resizes sizes w), lastHeight (resizes sizes w))
                 = last sizes (lastWidth w, lastHeight w)).
  { revert w. induction sizes as [|[nw nh] sizes IH]; intros w.
    - split; [|reflexivity]. exists []. rewrite app_nil_r. repeat split. constructor.
    - unfold resizes in *. cbn [fold_left fst snd jumps].
      destruct (resize_step nw nh w) as (Hw & Hh & _ & evs1 & Hs1 & Hl1 & Ht1).
      destruct (IH (handleResize nw nh w)) as ((evs2 & Hs2 & Hl2 & Ht2) & Hlast).
      rewrite Hw, Hh in Hl2, Hlast. split.
      + exists (evs1 ++ evs2)%list. rewrite Hs2, Hs1, <- app_assoc.
        split; [reflexivity|]. split; [rewrite length_app; lia|].
        apply Forall_app. now split.
      + rewrite Hlast. destruct sizes as [|s sizes]; [reflexivity|].
        cbn [last]. apply last_default. }
  destruct H as [(evs & Hs & Hl & Ht) Hlast].
  split; [now exists evs|]. split; [exact Hlast|].
  intros Hj. rewrite Hj in Hl. destruct evs; [|discriminate].
  now rewrite app_nil_r in Hs.
Qed.

Lemma poll_step (s : Sample) (w : World) :
  let w' := advance 1000 (checkDevTools s w) in
  devToolsOpen w' = isOpen s
  /\ exists evs,
       sink w' = (sink w ++ evs)%list
       /\ List.length evs = (if isOpen s && negb (devToolsOpen w) then 1 else 0)%nat
       /\ Forall (fun ev => type ev = DEVTOOLS_DETECTED) evs.
Proof.
  cbn zeta.
  destruct (same_report_advance 1000 (checkDevTools s w)) as (Hs & _ & Hd).
  rewrite Hs, Hd. unfold checkDevTools.
  destruct (isOpen s) eqn:Eo, (devToolsOpen w) eqn:Ew; simpl; rewrite ?Ew; split;
    try reflexivity.
  - exists []. rewrite app_nil_r. repeat split. constructor.
  - eexists. split; [reflexivity|]. split; [reflexivity|]. repeat constructor.
  - exists []. rewrite app_nil_r. repeat split. constructor.
  - exists []. rewrite app_nil_r. repeat split. constructor.
Qed.

(** X8. DevTools polling in general.  Along any run of polls the flag
    [devToolsOpen] ends up equal to the verdict of the last poll, and the
    events emitted are DEVTOOLS_DETECTED events only, exactly one for each
    change of the verdict from false to true: a verdict that flickers is
    reported at every new rise, a falling verdict never. *)
Theorem devtools_reports_every_rise (samples : list Sample) (w : World) :
  devToolsOpen (polling samples w) = last (map isOpen samples) (devToolsOpen w)
  /\ exists evs,
       sink (polling samples w) = (sink w ++ evs)%list
       /\ List.length evs = rising (devToolsOpen w) (map isOpen samples)
       /\ Forall (fun ev => type ev = DEVTOOLS_DETECTED) evs.
Proof.
  revert w. induction samples as [|s samples IH]; intros w.
  - split; [reflexivity|]. exists []. rewrite app_nil_r. repeat split. constructor.
  - rewrite polling_cons. cbn [map rising].
    destruct (poll_step s w) as (Hd & evs1 & Hs1 & Hl1 & Ht1).
    destruct (IH (advance 1000 (checkDevTools s w))) as (Hlast & evs2 & Hs2 & Hl2 & Ht2).
    rewrite Hd in Hlast, Hl2. split.
    + rewrite Hlast. destruct samples as [|s' samples]; [reflexivity|].
      cbn [map last]. apply last_default.
    + exists (evs1 ++ evs2)%list. rewrite Hs2, Hs1, <- app_assoc.
      split; [reflexivity|]. split; [rewrite length_app; lia|].
      apply Forall_app. now split.
Qed.

End DetectorFacts.

(** ** What a key press does to the banner *)

Section KeyFacts.

Import SecurityLayers Statements Observations.

Lemma first_match_table (e : KeyEvent) (combo : Combo) :
  first_match e = Some combo ->
  In combo blockedCombinations /\ combo_matches e combo = true.
Proof. unfold first_match. apply find_some. Qed.

Lemma table_message (e : KeyEvent) (combo : Combo) :
  first_match e = Some combo ->
  (Js.replace_first "_" " " (action combo) ++ " is disabled")
  = keyboard_message e (action combo).
Proof.
  intros H. apply first_match_table in H. destruct H as [Hin Hm].
  unfold keyboard_message.
  destruct (String.eqb_spec (key e) "F12") as [HF | _].
  - exfalso. unfold combo_matches in Hm. rewrite HF in Hm. simpl in Hm.
    repeat (destruct Hin as [<- | Hin];
            [simpl in Hm; rewrite ?andb_false_r in Hm; discriminate Hm|]).
    contradiction.
  - repeat (destruct Hin as [<- | Hin]; [reflexivity|]). contradiction.
Qed.

(** X9. What a blocked key shows.  When the keyboard table or the F12 test
    blocks a keydown with action [a], the handler suppresses the default
    once, leaves the protected element and the clipboard alone, schedules
    one clear of the banner 3000 ms later and shows: "Developer tools are
    disabled" for F12, and for the table the action with its underscore
    turned into a space, followed by " is disabled" ("select all is
    disabled", "devtools is disabled", ...). *)
Theorem blocked_key_banner (e : KeyEvent) (a : string) (w : World) :
  classify e = Block a ->
  let w' := handleKeyDown e w in
  securityViolation w' = Js.Str (keyboard_message e a)
  /\ prevented w' = S (prevented w)
  /\ content w' = content w
  /\ clipboardText w' = clipboardText w
  /\ timers w' = (timers w ++ [((now w + 3000)%N, ClearViolation)])%list.
Proof.
  unfold classify, handleKeyDown. destruct (first_match e) as [combo|] eqn:E.
  - intros H. injection H as <-. cbn zeta. simpl.
    rewrite (table_message e combo E). repeat split.
  - destruct (String.eqb_spec (key e) "F12") as [HF | _]; [|discriminate].
    intros H. injection H as <-. unfold keyboard_message. rewrite HF. repeat split.
Qed.

Lemma blocked_key_banner_witness :
  let w' := handleKeyDown Scenarios.select_all_press Scenarios.viewer in
  securityViolation w' = Js.Str "select all is disabled"
  /\ prevented w' = S (prevented Scenarios.viewer)
  /\ content w' = content Scenarios.viewer
  /\ clipboardText w' = clipboardText Scenarios.viewer
  /\ timers w' = (timers Scenarios.viewer
                  ++ [((now Scenarios.viewer + 3000)%N, ClearViolation)])%list.
Proof.
  apply (blocked_key_banner Scenarios.select_all_press "select_all" Scenarios.viewer).
  reflexivity.
Defined.

(** X10. Keys that are let through.  A keydown that the classifier allows
    and that is neither PrintScreen nor a platform-menu key leaves the
    hook's state exactly as it was: no suppressed default, no event, no
    banner, no timer.  The same holds for every keyup other than
    PrintScreen, Meta and OS. *)
Theorem plain_keys_pass_through (e : KeyEvent) (w : World) :
  plain_key e ->
  (classify e = Allow -> handleKeyDown e w = w) /\ handleKeyUp e w = w.
Proof.
  intros (Hp & Hm & Ho).
  apply String.eqb_neq in Hp, Hm, Ho. split.
  - unfold classify, handleKeyDown. destruct (first_match e); [discriminate|].
    destruct (key e =? "F12"); [discriminate|]. intros _.
    now rewrite Hp, Hm, Ho.
  - unfold handleKeyUp. now rewrite Hp, Hm, Ho.
Qed.

Lemma plain_keys_pass_through_witness :
  (classify (Scenarios.key_press "x") = Allow ->
   handleKeyDown (Scenarios.key_press "x") Scenarios.viewer = Scenarios.viewer)
  /\ handleKeyUp (Scenarios.key_press "x") Scenarios.viewer = Scenarios.viewer.
Proof.
  apply (plain_keys_pass_through (Scenarios.key_press "x") Scenarios.viewer).
  repeat split; discriminate.
Defined.

End KeyFacts.

(** ** Detaching, in general *)

Section DetachFacts.

Import SecurityLayers Statements Observations.











End DetachFacts.

(** ** More on the access gate *)

Section GateFacts.

Import AccessGate GateObservations.

Lemma split_no_space (t : string) :
  has_space t = false -> Js.split " " t = [t].
Proof.
  induction t as [|c t IH]; simpl; [reflexivity|].
  intros H. apply orb_false_iff in H. destruct H as [Hc Ht].
  rewrite Hc, (IH Ht). reflexivity.
Qed.

Lemma split_field (t rest : string) :
  has_space t = false ->
  Js.split " " (t ++ String " " rest) = t :: Js.split " " rest.
Proof.
  induction t as [|c t IH]; simpl; [reflexivity|].
  intros H. apply orb_false_iff in H. destruct H as [Hc Ht].
  rewrite Hc, (IH Ht). reflexivity.
Qed.

Lemma split_bearer (x : string) :
  Js.split " " ("Bearer " ++ x) = "Bearer" :: Js.split " " x.
Proof. exact (split_field "Bearer" x eq_refl). Qed.

Lemma token_of_bearer (x : string) :
  token_of ("Bearer " ++ x) = nth 0 (Js.split " " x) "".
Proof. unfold token_of. now rewrite split_bearer. Qed.

Lemma bearer_passes (env : Env) (x : string) :
  authMiddleware env {| authorization := Some ("Bearer " ++ x) |}
  = match verifyIdToken env (token_of ("Bearer " ++ x)) with
    | Rejected err => on_error err
    | Resolved decodedToken =>
        SetReqUser decodedToken ::
        match getUserDoc env (uid decodedToken) with
        | Rejected err => on_error err
        | Resolved (Some userData) =>
            if Js.truthy (disabled userData) then [forbidden userData]
            else call_next env
        | Resolved None => call_next env
        end
    end.
Proof.
  apply (bearer_unfold env _ ("Bearer " ++ x)); [reflexivity|].
  unfold is_bearer, Js.startsWith. simpl.
  repeat (destruct (ascii_dec _ _) as [_|Hne]; [|now contradiction Hne]).
  now destruct x.
Qed.

(** X12. The token is the second space-separated field of the header.  For
    a header "Bearer t" whose [t] has no space the issuer is asked about
    exactly [t]; anything after a further space is ignored, so
    "Bearer t rest" is treated exactly like "Bearer t"; and a second space
    right after the scheme makes the token the empty string. *)
Theorem bearer_token_is_second_field (env : Env) (t rest : string) :
  has_space t = false ->
  token_of ("Bearer " ++ t) = t
  /\ token_of ("Bearer " ++ t ++ " " ++ rest) = t
  /\ authMiddleware env {| authorization := Some ("Bearer " ++ t ++ " " ++ rest) |}
     = authMiddleware env {| authorization := Some ("Bearer " ++ t) |}
  /\ token_of ("Bearer " ++ " " ++ rest) = "".
Proof.
  intros Ht.
  assert (H1 : token_of ("Bearer " ++ t) = t)
    by (rewrite token_of_bearer, (split_no_space t Ht); reflexivity).
  assert (H2 : token_of ("Bearer " ++ t ++ " " ++ rest) = t)
    by (rewrite token_of_bearer; change (" " ++ rest) with (String " " rest);
        rewrite (split_field t rest Ht); reflexivity).
  split; [exact H1|]. split; [exact H2|]. split.
  - now rewrite !bearer_passes, H1, H2.
  - rewrite token_of_bearer. reflexivity.
Qed.

Lemma bearer_token_is_second_field_witness :
  token_of ("Bearer " ++ "good") = "good"
  /\ token_of ("Bearer " ++ "good" ++ " " ++ "and more") = "good"
  /\ authMiddleware Scenarios.gate_env
       {| authorization := Some ("Bearer " ++ "good" ++ " " ++ "and more") |}
     = authMiddleware Scenarios.gate_env {| authorization := Some ("Bearer " ++ "good") |}
  /\ token_of ("Bearer " ++ " " ++ "and more") = "".
Proof.
  apply (bearer_token_is_second_field Scenarios.gate_env "good" "and more").
  reflexivity.
Defined.

(** X13. One outcome per request.  The middleware answers at most once;
    when it does not enter the downstream handler it answers exactly
    once, with 401 or 403; when it enters the downstream handler and that
    handler returns normally it answers nothing itself; and 403 is only
    ever sent for a record found with a truthy [disabled]. *)
Theorem gate_single_outcome (env : Env) (req : Request) :
  let l := authMiddleware env req in
  (List.length (responses l) <= 1)%nat
  /\ (downstream_ran l = false ->
      exists st b, responses l = [(st, b)] /\ (st = 401%nat \/ st = 403%nat))
  /\ (downstream_ran l = true -> next env = None -> responses l = [])
  /\ (forall b, In (403%nat, b) (responses l) ->
        exists d u, In (SetReqUser d) l
                    /\ getUserDoc env (uid d) = Resolved (Some u)
                    /\ Js.truthy (disabled u) = true).
Proof.
  unfold authMiddleware.
  destruct (authorization req) as [h|];
    [destruct (negb (h =? "") && Js.startsWith h "Bearer ")|].
  2,3: cbn; repeat split; try lia; try discriminate;
       [ intros _; eexists; eexists; split; [reflexivity | now left]
       | intros b [H | []]; discriminate H ].
  destruct (verifyIdToken env (token_of h)) as [d | err].
  2: cbn; repeat split; try lia; try discriminate;
     [ intros _; eexists; eexists; split; [reflexivity | now left]
     | intros b [H | []]; discriminate H ].
  destruct (getUserDoc env (uid d)) as [[u|] | err] eqn:Eu.
  - destruct (Js.truthy (disabled u)) eqn:Ed.
    + cbn. repeat split; try lia; try discriminate.
      * intros _. eexists; eexists; split; [reflexivity | now right].
      * intros b _. exists d, u. repeat split; [now left | exact Eu | exact Ed].
    + unfold call_next. destruct (next env); cbn; repeat split; try lia;
        try discriminate; try (intros b [H | []]; discriminate H); intros b [].
  - unfold call_next. destruct (next env); cbn; repeat split; try lia;
      try discriminate; try (intros b [H | []]; discriminate H); intros b [].
  - cbn. repeat split; try lia; try discriminate.
    + intros _. eexists; eexists; split; [reflexivity | now left].
    + intros b [H | []]. discriminate H.
Qed.

(** X14. Failures after a good token read "Invalid token".  When the token
    verifies but the lookup of the user record fails, the middleware has
    already set [req.user], logs the cause and answers 401 "Unauthorized:
    Invalid token" without entering the downstream handler.  When the
    downstream handler throws, the middleware logs the exception and
    answers the same 401 after the handler has run. *)
Theorem gate_failures_read_invalid_token (env : Env) (req : Request)
    (h : string) (d : DecodedToken) (err : string) :
  authorization req = Some h -> is_bearer (Some h) = true ->
  verifyIdToken env (token_of h) = Resolved d ->
  (getUserDoc env (uid d) = Rejected err ->
   authMiddleware env req
   = [SetReqUser d; ConsoleError err;
      Respond 401 {| message := "Unauthorized: Invalid token"; reason := None |}])
  /\ (next env = Some err -> downstream_ran (authMiddleware env req) = true ->
      authMiddleware env req
      = [SetReqUser d; CallNext; ConsoleError err;
         Respond 401 {| message := "Unauthorized: Invalid token"; reason := None |}]).
Proof.
  intros Hh Hb Hv. rewrite (bearer_unfold env req h Hh Hb), Hv. split.
  - now intros ->.
  - intros Hn. unfold call_next. rewrite Hn.
    destruct (getUserDoc env (uid d)) as [[u|] | e]; [| reflexivity | discriminate].
    destruct (Js.truthy (disabled u)); [discriminate | reflexivity].
Qed.

Lemma gate_failures_read_invalid_token_witness :
  authMiddleware MoreScenarios.outage_env (Scenarios.request_with "Bearer good")
  = [SetReqUser {| uid := "alice" |}; ConsoleError "UNAVAILABLE";
     Respond 401 {| message := "Unauthorized: Invalid token"; reason := None |}]
  /\ authMiddleware MoreScenarios.throwing_env (Scenarios.request_with "Bearer fresh")
     = [SetReqUser {| uid := "bob" |}; CallNext; ConsoleError "boom";
        Respond 401 {| message := "Unauthorized: Invalid token"; reason := None |}].
Proof.
  split.
  - apply (proj1 (gate_failures_read_invalid_token MoreScenarios.outage_env
                    (Scenarios.request_with "Bearer good") "Bearer good"
                    {| uid := "alice" |} "UNAVAILABLE" eq_refl eq_refl eq_refl)).
    reflexivity.
  - apply (proj2 (gate_failures_read_invalid_token MoreScenarios.throwing_env
                    (Scenarios.request_with "Bearer fresh") "Bearer fresh"
                    {| uid := "bob" |} "boom" eq_refl eq_refl eq_refl));
      reflexivity.
Defined.

End GateFacts.

(** ** The API base URL *)

Section ApiConfigFacts.

Import ApiConfig.

Lemma dropLast_endsWith (s : string) (c : ascii) :
  endsWith s c = true -> dropLast s ++ String c "" = s.
Proof.
  induction s as [|a s IH]; simpl; [discriminate|].
  destruct s as [|b s].
  - intros H. apply Ascii.eqb_eq in H. now subst.
  - intros H. simpl in *. now rewrite (IH H).
Qed.

(** X15. The API base URL.  Without a configured value, or with the empty
    string, the base is "http://localhost:5000".  Exactly one trailing
    slash is removed: a raw value that ends in "/" is the base followed
    by "/", any other raw value is the base itself.  So the base never
    ends in "/" unless the raw value ended in two slashes, and the raw
    value "/" gives the empty base. *)
Theorem api_base_url_strips_one_slash (configured : option string) :
  let raw := rawBaseUrl configured in
  (configured = None \/ configured = Some "" -> API_BASE_URL configured = default_base)
  /\ (endsWith raw "/" = true -> API_BASE_URL configured ++ "/" = raw)
  /\ (endsWith raw "/" = false -> API_BASE_URL configured = raw)
  /\ (endsWith (API_BASE_URL configured) "/" = true ->
      endsWith raw "/" = true /\ endsWith (dropLast raw) "/" = true)
  /\ API_BASE_URL (Some "/") = "".
Proof.
  cbn zeta. unfold API_BASE_URL.
  split; [intros [-> | ->]; reflexivity|].
  split; [intros H; rewrite H; now apply dropLast_endsWith|].
  split; [now intros ->|].
  split; [|reflexivity].
  destruct (endsWith (rawBaseUrl configured) "/") eqn:E; intros H.
  - now split.
  - congruence.
Qed.

End ApiConfigFacts.

(** ** User records *)

Section UserFacts.

Import UserController UserObservations.

Lemma field_set_field (k k' : string) (v : Js.value) (doc : Doc) :
  field k (set_field k' v doc) = if k' =? k then v else field k doc.
Proof.
  induction doc as [|[k0 v0] doc IH]; simpl.
  - reflexivity.
  - destruct (String.eqb_spec k0 k') as [-> | Hne]; simpl.
    + now destruct (k' =? k).
    + rewrite IH. destruct (String.eqb_spec k0 k) as [-> | Hne'].
      * destruct (String.eqb_spec k' k) as [-> | _]; [contradiction | reflexivity].
      * reflexivity.
Qed.

Lemma field_profile (k : string) (body : ProfileBody) (doc : Doc) :
  field k (merge (profile_data body) doc)
  = if "picture" =? k then photoURL body
    else if "name" =? k then displayName body
    else field k doc.
Proof. unfold merge, profile_data. simpl. now rewrite !field_set_field. Qed.

Lemma write_other (id id' : string) (doc : Doc) (db : Store) :
  id' <> id -> docs (write id doc db) id' = docs db id'.
Proof. intros H. simpl. apply String.eqb_neq in H. now rewrite H. Qed.

Lemma write_same (id : string) (doc : Doc) (db : Store) :
  docs (write id doc db) id = Some doc.
Proof. simpl. now rewrite String.eqb_refl. Qed.

(** What [syncUser] does, case by case. *)
Lemma syncUser_cases (env : Env) (user : User) (db : Store) :
  let ok := Respond 200 (Synced "User synced" user) in
  syncUser env (Some user) db
  = match fault env (OpGet (uid user)) with
    | Some err => (db, on_error "Error syncing user:" err)
    | None =>
        match docs db (uid user) with
        | Some _ => (db, [ok])
        | None =>
            match fault env (OpSet (uid user) (fresh_doc env user)) with
            | Some err => (db, on_error "Error syncing user:" err)
            | None => (write (uid user) (fresh_doc env user) db, [ok])
            end
        end
    end.
Proof.
  unfold syncUser, await, get, set, fresh_doc. cbn zeta.
  destruct (fault env (OpGet (uid user))); [reflexivity|].
  destruct (docs db (uid user)); [reflexivity|].
  now destruct (fault env _).
Qed.



(** X17. [syncUser] answers exactly once, with 200 or 500.  It answers 200
    with the token's own fields when the lookup succeeds and the record
    exists or can be created.  When [req.user] is missing, when the lookup
    is rejected, and when the record is missing and the [set] is rejected,
    it logs the error, answers 500 "Internal Server Error" and leaves the
    store as it was. *)
Theorem syncUser_answers (env : Env) (reqUser : option User) (db : Store) :
  let r := syncUser env reqUser db in
  (responses (snd r) = [(500%nat, Message "Internal Server Error")]
   /\ (forall id, docs (fst r) id = docs db id)
   \/ exists user, reqUser = Some user
                   /\ responses (snd r) = [(200%nat, Synced "User synced" user)])
  /\ (reqUser = None ->
      fst r = db
      /\ snd r = [ConsoleError "Error syncing user:" "TypeError";
                  Respond 500 (Message "Internal Server Error")])
  /\ (forall user, reqUser = Some user ->
        fault env (OpGet (uid user)) = None ->
        (docs db (uid user) <> None
         \/ fault env (OpSet (uid user) (fresh_doc env user)) = None) ->
        snd r = [Respond 200 (Synced "User synced" user)])
  /\ (forall user err, reqUser = Some user ->
        fault env (OpGet (uid user)) = Some err ->
        fst r = db
        /\ snd r = [ConsoleError "Error syncing user:" err;
                    Respond 500 (Message "Internal Server Error")])
  /\ (forall user err, reqUser = Some user ->
        fault env (OpGet (uid user)) = None ->
        docs db (uid user) = None ->
        fault env (OpSet (uid user) (fresh_doc env user)) = Some err ->
        fst r = db
        /\ snd r = [ConsoleError "Error syncing user:" err;
                    Respond 500 (Message "Internal Server Error")]).
Proof.
  cbn zeta. destruct reqUser as [user|].
  - rewrite syncUser_cases. cbn zeta.
    destruct (fault env (OpGet (uid user))) as [e|] eqn:Eg.
    { split; [left; now split|]. split; [discriminate|].
      split; [|split]; intros u; intros; match goal with
                                         | H : Some _ = Some u |- _ => injection H as <-
                                         end; try congruence.
      split; [reflexivity|]. unfold on_error. cbn [snd]. congruence. }
    destruct (docs db (uid user)) as [doc|] eqn:Ed.
    { split; [right; now exists user|]. split; [discriminate|].
      split; [|split]; intros u; intros; match goal with
                                         | H : Some _ = Some u |- _ => injection H as <-
                                         end; try congruence.
      reflexivity. }
    destruct (fault env (OpSet (uid user) (fresh_doc env user))) as [e|] eqn:Es.
    { split; [left; now split|]. split; [discriminate|].
      split; [|split]; intros u; intros; match goal with
                                         | H : Some _ = Some u |- _ => injection H as <-
                                         end; try congruence.
      - match goal with H : _ \/ _ |- _ => destruct H; congruence end.
      - split; [reflexivity|]. unfold on_error. cbn [snd]. congruence. }
    split; [right; now exists user|]. split; [discriminate|].
    split; [|split]; intros u; intros; match goal with
                                       | H : Some _ = Some u |- _ => injection H as <-
                                       end; try congruence.
    reflexivity.
  - split; [left; now split|]. split; [now split|].
    split; [|split]; intros; discriminate.
Qed.

(** A first sign-in against a store that rejects the [set]: the error is
    logged, the answer is 500 and no record appears. *)
Lemma syncUser_answers_witness :
  let r := syncUser MoreScenarios.read_only_store (Some MoreScenarios.carol)
             MoreScenarios.no_users in
  fst r = MoreScenarios.no_users
  /\ snd r = [ConsoleError "Error syncing user:" "PERMISSION_DENIED";
              Respond 500 (Message "Internal Server Error")].
Proof.
  destruct (syncUser_answers MoreScenarios.read_only_store (Some MoreScenarios.carol)
              MoreScenarios.no_users) as (_ & _ & _ & _ & H).
  apply (H MoreScenarios.carol "PERMISSION_DENIED"); reflexivity.
Defined.

Lemma updateProfile_cases (env : Env) (user : User) (body : ProfileBody) (db : Store) :
  updateProfile env (Some user) (Some body) db
  = match fault env (OpUpdate (uid user) (profile_data body)) with
    | Some err => (db, on_error "Error updating profile:" err)
    | None =>
        match docs db (uid user) with
        | Some doc =>
            (write (uid user) (merge (profile_data body) doc) db,
             [Respond 200 (Message "Profile updated successfully")])
        | None => (db, on_error "Error updating profile:" "NOT_FOUND")
        end
    end.
Proof.
  unfold updateProfile, await, update, profile_data.
  destruct (fault env _); [reflexivity|].
  now destruct (docs db (uid user)).
Qed.

(** X18. [updateProfile] writes the name and the picture and nothing else.
    It touches no record but the caller's.  When the caller has no record
    it creates none and answers 500.  When the record exists and the store
    accepts the update, the record's [name] and [picture] are the
    submitted values and every other field (email, role, disabled, ...)
    is as before, and the answer is 200.  A request without [req.user] or
    without a body, and an update the store rejects, are answered 500 with
    the store as it was. *)
Theorem updateProfile_writes_name_and_picture (env : Env) (user : User)
    (body : ProfileBody) (db : Store) :
  let r := updateProfile env (Some user) (Some body) db in
  (forall id, id <> uid user -> docs (fst r) id = docs db id)
  /\ (docs db (uid user) = None ->
      (forall id, docs (fst r) id = docs db id)
      /\ responses (snd r) = [(500%nat, Message "Internal Server Error")])
  /\ (forall doc, docs db (uid user) = Some doc ->
        fault env (OpUpdate (uid user) (profile_data body)) = None ->
        exists doc',
          docs (fst r) (uid user) = Some doc'
          /\ field "name" doc' = displayName body
          /\ field "picture" doc' = photoURL body
          /\ (forall k, k <> "name" -> k <> "picture" -> field k doc' = field k doc)
          /\ responses (snd r) = [(200%nat, Message "Profile updated successfully")])
  /\ (forall err, fault env (OpUpdate (uid user) (profile_data body)) = Some err ->
        r = (db, on_error "Error updating profile:" err))
  /\ (forall reqUser reqBody, reqUser = None \/ reqBody = None ->
        updateProfile env reqUser reqBody db
        = (db, on_error "Error updating profile:" "TypeError")).
Proof.
  cbn zeta. rewrite updateProfile_cases.
  destruct (fault env (OpUpdate (uid user) (profile_data body))) as [e|] eqn:Ef.
  - repeat split; auto; try discriminate.
    + intros err H. now injection H as <-.
    + intros ru rb [-> | ->]; [reflexivity | now destruct ru].
  - destruct (docs db (uid user)) as [doc|] eqn:Ed.
    + split; [intros id Hid; now apply write_other|].
      split; [discriminate|]. split; [|split; [discriminate|]].
      * intros doc0 H _. injection H as <-.
        exists (merge (profile_data body) doc). cbn [fst snd].
        rewrite write_same. split; [reflexivity|].
        rewrite !field_profile. repeat split.
        intros k Hn Hp. rewrite field_profile.
        apply not_eq_sym in Hn, Hp. apply String.eqb_neq in Hn, Hp.
        now rewrite Hn, Hp.
      * intros ru rb [-> | ->]; [reflexivity | now destruct ru].
    + repeat split; auto; try discriminate.
      intros ru rb [-> | ->]; [reflexivity | now destruct ru].
Qed.




End UserFacts.

(** ** The banner always goes away *)

Section BannerLiveness.

Import SecurityLayers Statements Observations.

Lemma scheduled_frame (w w' : World) :
  securityViolation w' = securityViolation w -> now w' = now w ->
  filter is_clear (timers w') = filter is_clear (timers w) ->
  banner_scheduled w -> banner_scheduled w'.
Proof. unfold banner_scheduled. now intros -> -> ->. Qed.

Lemma scheduled_showViolation (m : string) (w : World) :
  banner_scheduled (showViolation m w).
Proof.
  right. rewrite clears_showViolation, existsb_app. simpl.
  rewrite N.leb_refl. apply orb_true_r.
Qed.

Lemma scheduled_hide (w : World) :
  banner_scheduled w -> banner_scheduled (hideContentInstantly w).
Proof. unfold hideContentInstantly. now destruct (content w). Qed.

Lemma scheduled_show (w : World) :
  banner_scheduled w -> banner_scheduled (showContent w).
Proof.
  unfold showContent. destruct (content w); [|easy].
  apply scheduled_frame; try reflexivity. simpl. rewrite filter_app. simpl.
  apply app_nil_r.
Qed.

Lemma scheduled_clipboard (w : World) :
  banner_scheduled w -> banner_scheduled (overwrite_clipboard w).
Proof. unfold overwrite_clipboard, writeText. now destruct (clipboardApi w). Qed.

Lemma scheduled_call_show (d : N) (w : World) :
  banner_scheduled w -> banner_scheduled (setTimeout CallShowContent d w).
Proof.
  apply scheduled_frame; try reflexivity. simpl. rewrite filter_app. simpl.
  apply app_nil_r.
Qed.

Lemma scheduled_logEvent ty d (w : World) :
  banner_scheduled w -> banner_scheduled (logEvent ty d w).
Proof. now apply scheduled_frame. Qed.

Lemma scheduled_preventDefault (w : World) :
  banner_scheduled w -> banner_scheduled (preventDefault w).
Proof. now apply scheduled_frame. Qed.

Lemma scheduled_setIsFocused b (w : World) :
  banner_scheduled w -> banner_scheduled (setIsFocused b w).
Proof. now apply scheduled_frame. Qed.

Ltac scheduled_steps :=
  repeat match goal with
         | |- banner_scheduled (showViolation _ _) => apply scheduled_showViolation
         | |- banner_scheduled (logEvent _ _ _) => apply scheduled_logEvent
         | |- banner_scheduled (setTimeout CallShowContent _ _) =>
             apply scheduled_call_show
         | |- banner_scheduled (showContent _) => apply scheduled_show
         | |- banner_scheduled (hideContentInstantly _) => apply scheduled_hide
         | |- banner_scheduled (overwrite_clipboard _) => apply scheduled_clipboard
         | |- banner_scheduled (preventDefault _) => apply scheduled_preventDefault
         | |- banner_scheduled (setIsFocused _ _) => apply scheduled_setIsFocused
         end;
  try assumption.

Lemma scheduled_handler (h : HandlerName) (ev : DomEvent) (w : World) :
  banner_scheduled w -> banner_scheduled (run_handler h ev (host_update ev w)).
Proof.
  intros Hw.
  assert (Hu : banner_scheduled (host_update ev w))
    by (destruct ev; simpl; try exact Hw; now apply (scheduled_frame w)).
  revert Hu. generalize (host_update ev w). clear w Hw. intros w Hw.
  destruct h, ev; cbn [run_handler]; try exact Hw.
  - unfold handleContextMenu. scheduled_steps.
  - unfold handleKeyDown.
    destruct (first_match e); [scheduled_steps|].
    destruct (key e =? "F12"); [scheduled_steps|].
    destruct (key e =? "PrintScreen"); [scheduled_steps|].
    destruct ((key e =? "Meta") || (key e =? "OS")); scheduled_steps.
  - unfold handleKeyUp.
    destruct (key e =? "PrintScreen"), ((key e =? "Meta") || (key e =? "OS"));
      scheduled_steps.
  - unfold handleFocus. scheduled_steps.
  - unfold handleBlur. scheduled_steps.
  - unfold handleVisibilityChange. destruct (docHidden w); scheduled_steps.
  - unfold handleResize. destruct (_ || _); now apply (scheduled_frame w).
  - unfold handleCopy. scheduled_steps.
Qed.

Lemma scheduled_advance (dt : N) (w : World) :
  banner_scheduled w -> banner_scheduled (advance dt w).
Proof.
  intros Hw. unfold banner_scheduled.
  rewrite banner_advance.
  destruct (existsb _ (filter is_clear (timers w))) eqn:Edue at 1; [now left|].
  destruct Hw as [Hn | Hp]; [now left|]. right.
  apply existsb_exists in Hp. destruct Hp as (x & Hx & Hle).
  apply filter_In in Hx. destruct Hx as [Hin Hclear].
  apply N.leb_le in Hle.
  assert (Hlate : (now w + dt < fst x)%N).
  { apply N.lt_nge. intros Hdue.
    assert (Ht : existsb (fun y => (fst y <=? now w + dt)%N)
                   (filter is_clear (timers w)) = true).
    { apply existsb_exists. exists x. split; [now apply filter_In|]. now apply N.leb_le. }
    congruence. }
  apply existsb_exists. exists x. split.
  - unfold advance. rewrite clears_run_until. apply filter_In. split; [exact Hin|].
    unfold clear_after. rewrite Hclear. simpl. now apply N.ltb_lt.
  - apply N.leb_le. rewrite now_advance. lia.
Qed.

Lemma scheduled_input (i : Input) (w : World) :
  banner_scheduled w -> banner_scheduled (apply_input i w).
Proof.
  intros Hw. destruct i; simpl.
  - now apply scheduled_handler.
  - unfold checkDevTools. destruct (isOpen s && negb (devToolsOpen w)).
    + now apply (scheduled_frame w).
    + destruct (negb (isOpen s) && devToolsOpen w); [|exact Hw].
      now apply (scheduled_frame w).
  - now apply scheduled_advance.
  - apply scheduled_showViolation.
  - now apply scheduled_logEvent.
  - now apply (scheduled_frame w).
  - now apply (scheduled_frame w).
  - now apply (scheduled_frame w).
Qed.

Lemma reachable_scheduled (w : World) : reachable w -> banner_scheduled w.
Proof.
  induction 1 as [ow oh surface api | i w Hr IH]; [now left|].
  now apply scheduled_input.
Qed.

(** X20. The banner always goes away.  In every state the hook reaches,
    whatever violations were raised and in whatever order, 3000 ms without
    a further input are enough for the banner to be clear, and it stays
    clear as long as nothing else happens. *)
Theorem banner_always_clears (w : World) (e : N) :
  reachable w -> (3000 <= e)%N -> securityViolation (advance e w) = Js.Null.
Proof.
  intros Hr He. rewrite banner_advance.
  destruct (existsb _ (filter is_clear (timers w))) eqn:Edue; [reflexivity|].
  destruct (reachable_scheduled w Hr) as [Hn | Hp]; [exact Hn|].
  exfalso. apply existsb_exists in Hp. destruct Hp as (x & Hx & Hle).
  apply N.leb_le in Hle.
  assert (Ht : existsb (fun y => (fst y <=? now w + e)%N)
                 (filter is_clear (timers w)) = true).
  { apply existsb_exists. exists x. split; [exact Hx|]. apply N.leb_le. lia. }
  congruence.
Qed.

Lemma banner_always_clears_witness :
  securityViolation (advance 3000 (run Scenarios.two_violations Scenarios.viewer))
  = Js.Null.
Proof.
  apply (banner_always_clears (run Scenarios.two_violations Scenarios.viewer) 3000).
  - apply reachable_run. apply reachable_mount.
  - discriminate.
Defined.

End BannerLiveness.
